(** * Arckitek: the chat panel, the image editor, the AI service wrappers
      and the placeholder cube renderer

    A shallow embedding of [src/types.ts], the service module
    ([sendMessage], [editImage], [generateImage]), [src/App.tsx] and the
    three components [ChatInterface], [ImageEditor] and [ThreeDViewer].

    JavaScript strings are sequences of code units; the embedding keeps
    the code units of the Latin-1 range, one [ascii] each.  React state
    is a record, an event handler is a resumable program that reads the
    values of the render it was created in, updates the state, and may
    suspend once on a call of the AI service. *)

From Stdlib Require Import String Ascii List Bool Arith Lia ZArith.
Import ListNotations.

Local Open Scope nat_scope.
Local Open Scope string_scope.
Local Open Scope list_scope.

(** ** JavaScript values used by the program *)

Module JS.

(** Truthiness of a string: only the empty string is falsy. *)
Definition truthy (s : string) : bool :=
  match s with
  | EmptyString => false
  | String _ _ => true
  end.

(** Truthiness of [string | null] and [string | undefined]. *)
Definition truthy_opt (o : option string) : bool :=
  match o with
  | Some s => truthy s
  | None => false
  end.

(** [a || b] where [a : string | null | undefined] and [b : string]. *)
Definition or_else (a : option string) (b : string) : string :=
  match a with
  | Some s => if truthy s then s else b
  | None => b
  end.

(** [a || undefined]. *)
Definition or_undefined (a : option string) : option string :=
  if truthy_opt a then a else None.

(** White space and line terminators of ECMAScript below U+0100:
    TAB, LF, VT, FF, CR, SP and NBSP. *)
Definition isWhiteSpace (c : ascii) : bool :=
  let n := nat_of_ascii c in
  ((9 <=? n)%nat && (n <=? 13)%nat) || (n =? 32)%nat || (n =? 160)%nat.

Fixpoint trimStart (s : string) : string :=
  match s with
  | EmptyString => EmptyString
  | String c t => if isWhiteSpace c then trimStart t else s
  end.

Fixpoint trimEnd (s : string) : string :=
  match s with
  | EmptyString => EmptyString
  | String c t =>
      match trimEnd t with
      | EmptyString => if isWhiteSpace c then EmptyString else String c EmptyString
      | t' => String c t'
      end
  end.

(** [String.prototype.trim]. *)
Definition trim (s : string) : string := trimEnd (trimStart s).

(** Lower-case mapping of one code unit below U+0100: A-Z and the
    capital letters U+00C0-U+00DE, the multiplication sign apart. *)
Definition lowerChar (c : ascii) : ascii :=
  let n := nat_of_ascii c in
  if ((65 <=? n)%nat && (n <=? 90)%nat)
     || ((192 <=? n)%nat && (n <=? 222)%nat && negb (n =? 215)%nat)
  then ascii_of_nat (n + 32)
  else c.

(** [String.prototype.toLowerCase]. *)
Fixpoint toLowerCase (s : string) : string :=
  match s with
  | EmptyString => EmptyString
  | String c t => String (lowerChar c) (toLowerCase t)
  end.

(** [s.includes(sub)]: [sub] occurs in [s] as a contiguous run. *)
Fixpoint includes (s sub : string) : bool :=
  String.prefix sub s
  || match s with
     | EmptyString => false
     | String _ t => includes t sub
     end.

(** The text before the first occurrence of [sep], and the rest after
    it when [sep] occurs. *)
Fixpoint cut (sep : ascii) (s : string) : string * option string :=
  match s with
  | EmptyString => (EmptyString, None)
  | String c t =>
      if Ascii.eqb c sep then (EmptyString, Some t)
      else let '(h, r) := cut sep t in (String c h, r)
  end.

(** [s.split(sep)] for a one-character separator. *)
Fixpoint split_fuel (fuel : nat) (sep : ascii) (s : string) : list string :=
  match fuel with
  | O => [s]
  | S fuel' =>
      match cut sep s with
      | (h, None) => [h]
      | (h, Some r) => h :: split_fuel fuel' sep r
      end
  end.

Definition split (sep : ascii) (s : string) : list string :=
  split_fuel (String.length s) sep s.

End JS.

(** ** [src/types.ts] *)

Module Types.

Inductive Role := user | model.

Record GroundingUrl := { title : string; uri : string }.

Record Message := {
  role : Role;
  text : option string;
  image : option string;
  isThinking : option bool;
  groundingUrls : option (list GroundingUrl);
  audioData : option string
}.

(** ['1K' | '2K' | '4K'] *)
Inductive ImageSize := K1 | K2 | K4.

Definition size_string (z : ImageSize) : string :=
  match z with K1 => "1K" | K2 => "2K" | K4 => "4K" end.

Record ImageGenSettings := {
  aspectRatio : string;
  size : ImageSize;
  prompt : string
}.

(** The object literals of the components, which set [role] and some
    of [text], [image] and [groundingUrls]. *)
Definition message_lit (r : Role) (t i : option string)
    (g : option (list GroundingUrl)) : Message :=
  {| role := r; text := t; image := i; isThinking := None;
     groundingUrls := g; audioData := None |}.

End Types.

(** ** The vendor SDK, as far as the program writes requests and reads
       responses *)

Module Sdk.

Record InlineData := { mimeType : string; data : string }.

(** A part of a request. *)
Inductive ReqPart :=
| TextPart (t : string)
| InlinePart (d : InlineData).

Record ThinkingConfig := { thinkingBudget : Z }.

(** [{ googleSearch: {} }] *)
Inductive Tool := GoogleSearch.

Record ChatConfig := {
  thinkingConfig : option ThinkingConfig;
  tools : option (list Tool)
}.

Record HistoryItem := { h_role : Types.Role; h_parts : list ReqPart }.

(** [ai.chats.create({model, config, history})] followed by
    [sendMessageStream({parts})]. *)
Record ChatRequest := {
  chat_model : string;
  chat_config : ChatConfig;
  chat_history : list HistoryItem;
  chat_parts : list ReqPart
}.

Record ImageConfig := { imageSize : string; aspectRatio : string }.

(** [ai.models.generateContent({model, contents: {parts}, config})] *)
Record ContentRequest := {
  model : string;
  contents : list ReqPart;
  imageConfig : option ImageConfig
}.

(** A part of a response. *)
Record Part := { text : option string; inlineData : option InlineData }.

Record Content := { parts : option (list Part) }.

Record Web := { title : option string; uri : option string }.

Record GroundingChunk := { web : option Web }.

Record GroundingMetadata := { groundingChunks : option (list GroundingChunk) }.

Record Candidate := {
  content : option Content;
  groundingMetadata : option GroundingMetadata
}.

Record GenerateContentResponse := { candidates : option (list Candidate) }.

(** One chunk of a streamed chat answer; [chunk_text] is the [text]
    accessor of the chunk. *)
Record Chunk := {
  chunk_text : option string;
  chunk_candidates : option (list Candidate)
}.

(** A thrown value. *)
Inductive Exn := Error (message : string).

(** What an awaited promise settles to. *)
Inductive Awaited (A : Type) :=
| Resolved (a : A)
| Rejected (e : Exn).
Arguments Resolved {A} a.
Arguments Rejected {A} e.

(** A streamed answer: the chunks that arrive, then the end of the
    stream or a failure of the iteration. *)
Record Stream := { chunks : list Chunk; failure : option Exn }.

End Sdk.

(** ** Resumable programs

    An [async] function is a tree: it returns or throws ([Pure]),
    updates the state ([Eff]), or suspends on a request to the service
    and carries on with what the request settles to. *)

Module Async.

Import Sdk.

Inductive Result (A : Type) :=
| Ok (a : A)
| Throw (e : Exn).
Arguments Ok {A} a.
Arguments Throw {A} e.

Section Programs.

Variable S : Type.

Inductive Async (A : Type) : Type :=
| Pure (r : Result A)
| Eff (f : S -> S) (k : Async A)
| AwaitContent (req : ContentRequest)
    (k : Awaited GenerateContentResponse -> Async A)
| AwaitStream (req : ChatRequest) (k : Awaited Stream -> Async A).

Arguments Pure {A} r.
Arguments Eff {A} f k.
Arguments AwaitContent {A} req k.
Arguments AwaitStream {A} req k.

Definition ret {A} (a : A) : Async A := Pure (Ok a).
Definition throw {A} (e : Exn) : Async A := Pure (Throw e).
Definition eff (f : S -> S) : Async unit := Eff f (ret tt).

Fixpoint bind {A B} (p : Async A) (f : A -> Async B) : Async B :=
  match p with
  | Pure (Ok a) => f a
  | Pure (Throw e) => Pure (Throw e)
  | Eff g k => Eff g (bind k f)
  | AwaitContent req k => AwaitContent req (fun o => bind (k o) f)
  | AwaitStream req k => AwaitStream req (fun o => bind (k o) f)
  end.

(** [try { p } catch (e) { h e }] *)
Fixpoint try_catch {A} (p : Async A) (h : Exn -> Async A) : Async A :=
  match p with
  | Pure (Ok a) => Pure (Ok a)
  | Pure (Throw e) => h e
  | Eff g k => Eff g (try_catch k h)
  | AwaitContent req k => AwaitContent req (fun o => try_catch (k o) h)
  | AwaitStream req k => AwaitStream req (fun o => try_catch (k o) h)
  end.

(** [try { p } finally { fin }]: [fin] runs on both exits, and the
    completion of [p] stands unless [fin] throws. *)
Fixpoint try_finally {A} (p : Async A) (fin : Async unit) : Async A :=
  match p with
  | Pure r => bind fin (fun _ => Pure r)
  | Eff g k => Eff g (try_finally k fin)
  | AwaitContent req k => AwaitContent req (fun o => try_finally (k o) fin)
  | AwaitStream req k => AwaitStream req (fun o => try_finally (k o) fin)
  end.

Definition try_catch_finally {A} (p : Async A) (h : Exn -> Async A)
    (fin : Async unit) : Async A :=
  try_finally (try_catch p h) fin.

(** [await] of the two kinds of request. *)
Definition settle {A} (o : Awaited A) : Async A :=
  match o with
  | Resolved a => ret a
  | Rejected e => throw e
  end.

Definition generateContent (req : ContentRequest)
    : Async GenerateContentResponse :=
  AwaitContent req settle.

Definition sendMessageStream (req : ChatRequest) : Async Stream :=
  AwaitStream req settle.

(** A suspended program: the request it waits for and its
    continuation. *)
Inductive Task (A : Type) :=
| OnContent (req : ContentRequest)
    (k : Awaited GenerateContentResponse -> Async A)
| OnStream (req : ChatRequest) (k : Awaited Stream -> Async A).

Arguments OnContent {A} req k.
Arguments OnStream {A} req k.

(** Run a program up to its end or its next suspension. *)
Fixpoint run {A} (p : Async A) (s : S) : S * (Result A + Task A) :=
  match p with
  | Pure r => (s, inl r)
  | Eff f k => run k (f s)
  | AwaitContent req k => (s, inr (OnContent req k))
  | AwaitStream req k => (s, inr (OnStream req k))
  end.

(** What the service answers to a request, and the rest of the program
    that waited for it. *)
Inductive Settlement :=
| ContentSettles (o : Awaited GenerateContentResponse)
| StreamSettles (o : Awaited Stream).

Definition resume {A} (t : Task A) (o : Settlement) : option (Async A) :=
  match t, o with
  | OnContent _ k, ContentSettles r => Some (k r)
  | OnStream _ k, StreamSettles r => Some (k r)
  | _, _ => None
  end.

(** The exception a settlement makes the awaiting code throw: the
    request is rejected, or the iteration of the stream fails. *)
Definition thrown (o : Settlement) : option Exn :=
  match o with
  | ContentSettles (Rejected e) => Some e
  | StreamSettles (Rejected e) => Some e
  | StreamSettles (Resolved st) => failure st
  | ContentSettles (Resolved _) => None
  end.

(** The first request a program issues, if any. *)
Inductive Request :=
| ContentCall (req : ContentRequest)
| StreamCall (req : ChatRequest).

Fixpoint first_call {A} (p : Async A) : option Request :=
  match p with
  | Pure _ => None
  | Eff _ k => first_call k
  | AwaitContent req _ => Some (ContentCall req)
  | AwaitStream req _ => Some (StreamCall req)
  end.

Definition request_of {A} (t : Task A) : Request :=
  match t with
  | OnContent req _ => ContentCall req
  | OnStream req _ => StreamCall req
  end.

End Programs.

Arguments Pure {S A} r.
Arguments Eff {S A} f k.
Arguments AwaitContent {S A} req k.
Arguments AwaitStream {S A} req k.
Arguments ret {S A} a.
Arguments throw {S A} e.
Arguments eff {S} f.
Arguments bind {S A B} p f.
Arguments try_catch {S A} p h.
Arguments try_finally {S A} p fin.
Arguments try_catch_finally {S A} p h fin.
Arguments settle {S A} o.
Arguments generateContent {S} req.
Arguments sendMessageStream {S} req.
Arguments OnContent {S A} req k.
Arguments OnStream {S A} req k.
Arguments run {S A} p s.
Arguments resume {S A} t o.
Arguments first_call {S A} p.
Arguments request_of {S A} t.

Declare Scope async_scope.
Delimit Scope async_scope with async.
Notation "x <- p ;; q" := (bind p (fun x => q))
  (at level 61, p at next level, right associativity) : async_scope.
Notation "p ;; q" := (bind p (fun _ => q))
  (at level 61, right associativity) : async_scope.

End Async.

(** ** React state of the application

    [App] owns [capturedImage] and [isEditing]; [ChatInterface] and
    [ImageEditor] own their [useState] cells.  [ImageEditor] is rendered
    only while [isEditing && capturedImage], so its cells exist only
    then; [instance] tells one mounting of the editor from the next.
    (The cells of [App] that hold the URL of the embedded scene are left
    out: no handler below reads or writes them.) *)

Module State.

Record ChatState := {
  input : string;
  messages : list Types.Message;
  isLoading : bool;
  useThinking : bool;
  useSearch : bool;
  showGenModal : bool;
  genSettings : Types.ImageGenSettings
}.

Record EditorState := {
  prompt : string;
  isGenerating : bool;
  generatedImage : option string;
  error : option string
}.

Record Mounted := { instance : nat; cells : EditorState }.

Record UI := {
  capturedImage : option string;
  isEditing : bool;
  chat : ChatState;
  editor : option Mounted;
  mounts : nat;
  console : list (string * Sdk.Exn);
  alerts : list string
}.

(** *** Setters of [App] *)

Definition setCapturedImage (v : option string) (u : UI) : UI :=
  {| capturedImage := v; isEditing := isEditing u; chat := chat u;
     editor := editor u; mounts := mounts u; console := console u;
     alerts := alerts u |}.

Definition setIsEditing (v : bool) (u : UI) : UI :=
  {| capturedImage := capturedImage u; isEditing := v; chat := chat u;
     editor := editor u; mounts := mounts u; console := console u;
     alerts := alerts u |}.

Definition console_error (label : string) (e : Sdk.Exn) (u : UI) : UI :=
  {| capturedImage := capturedImage u; isEditing := isEditing u; chat := chat u;
     editor := editor u; mounts := mounts u;
     console := console u ++ [(label, e)]; alerts := alerts u |}.

Definition alert (msg : string) (u : UI) : UI :=
  {| capturedImage := capturedImage u; isEditing := isEditing u; chat := chat u;
     editor := editor u; mounts := mounts u; console := console u;
     alerts := alerts u ++ [msg] |}.

(** *** Setters of [ChatInterface] *)

Definition with_chat (f : ChatState -> ChatState) (u : UI) : UI :=
  {| capturedImage := capturedImage u; isEditing := isEditing u;
     chat := f (chat u); editor := editor u; mounts := mounts u;
     console := console u; alerts := alerts u |}.

Definition setInput (v : string) : UI -> UI :=
  with_chat (fun c =>
    {| input := v; messages := messages c; isLoading := isLoading c;
       useThinking := useThinking c; useSearch := useSearch c;
       showGenModal := showGenModal c; genSettings := genSettings c |}).

(** [setMessages(prev => f prev)] *)
Definition setMessages (f : list Types.Message -> list Types.Message) : UI -> UI :=
  with_chat (fun c =>
    {| input := input c; messages := f (messages c); isLoading := isLoading c;
       useThinking := useThinking c; useSearch := useSearch c;
       showGenModal := showGenModal c; genSettings := genSettings c |}).

Definition setIsLoading (v : bool) : UI -> UI :=
  with_chat (fun c =>
    {| input := input c; messages := messages c; isLoading := v;
       useThinking := useThinking c; useSearch := useSearch c;
       showGenModal := showGenModal c; genSettings := genSettings c |}).

Definition setUseThinking (v : bool) : UI -> UI :=
  with_chat (fun c =>
    {| input := input c; messages := messages c; isLoading := isLoading c;
       useThinking := v; useSearch := useSearch c;
       showGenModal := showGenModal c; genSettings := genSettings c |}).

Definition setUseSearch (v : bool) : UI -> UI :=
  with_chat (fun c =>
    {| input := input c; messages := messages c; isLoading := isLoading c;
       useThinking := useThinking c; useSearch := v;
       showGenModal := showGenModal c; genSettings := genSettings c |}).

Definition setShowGenModal (v : bool) : UI -> UI :=
  with_chat (fun c =>
    {| input := input c; messages := messages c; isLoading := isLoading c;
       useThinking := useThinking c; useSearch := useSearch c;
       showGenModal := v; genSettings := genSettings c |}).

Definition setGenSettings (v : Types.ImageGenSettings) : UI -> UI :=
  with_chat (fun c =>
    {| input := input c; messages := messages c; isLoading := isLoading c;
       useThinking := useThinking c; useSearch := useSearch c;
       showGenModal := showGenModal c; genSettings := v |}).

(** *** Setters of [ImageEditor]

    A setter called by a handler of the mounting [i] of the editor
    changes the cells of that mounting; once it is unmounted the call
    has no effect. *)

Definition with_editor (i : nat) (f : EditorState -> EditorState) (u : UI) : UI :=
  {| capturedImage := capturedImage u; isEditing := isEditing u; chat := chat u;
     editor :=
       match editor u with
       | Some m =>
           if Nat.eqb (instance m) i
           then Some {| instance := i; cells := f (cells m) |}
           else Some m
       | None => None
       end;
     mounts := mounts u; console := console u; alerts := alerts u |}.

Definition setPrompt (i : nat) (v : string) : UI -> UI :=
  with_editor i (fun e =>
    {| prompt := v; isGenerating := isGenerating e;
       generatedImage := generatedImage e; error := error e |}).

Definition setIsGenerating (i : nat) (v : bool) : UI -> UI :=
  with_editor i (fun e =>
    {| prompt := prompt e; isGenerating := v;
       generatedImage := generatedImage e; error := error e |}).

Definition setGeneratedImage (i : nat) (v : option string) : UI -> UI :=
  with_editor i (fun e =>
    {| prompt := prompt e; isGenerating := isGenerating e;
       generatedImage := v; error := error e |}).

Definition setError (i : nat) (v : option string) : UI -> UI :=
  with_editor i (fun e =>
    {| prompt := prompt e; isGenerating := isGenerating e;
       generatedImage := generatedImage e; error := v |}).

(** The [useState] initialisers of [ImageEditor]. *)
Definition fresh_editor : EditorState :=
  {| prompt := EmptyString; isGenerating := false;
     generatedImage := None; error := None |}.

(** What a render of [App] does to the editor: it is there exactly
    while [isEditing && capturedImage], with fresh cells when it
    appears. *)
Definition reconcile (u : UI) : UI :=
  if isEditing u && JS.truthy_opt (capturedImage u) then
    match editor u with
    | Some _ => u
    | None =>
        {| capturedImage := capturedImage u; isEditing := isEditing u;
           chat := chat u;
           editor := Some {| instance := S (mounts u); cells := fresh_editor |};
           mounts := S (mounts u); console := console u; alerts := alerts u |}
    end
  else
    {| capturedImage := capturedImage u; isEditing := isEditing u; chat := chat u;
       editor := None; mounts := mounts u; console := console u;
       alerts := alerts u |}.

End State.

(** ** The service module: [sendMessage], [editImage], [generateImage] *)

Module Service.

Import Sdk Async.
Local Open Scope async_scope.

Definition Prog := Async State.UI.

Definition console_error (label : string) (e : Exn) : Prog unit :=
  eff (State.console_error label e).

Record ChatOptions := {
  history : list HistoryItem;
  message : string;
  image : option string;
  useThinking : option bool;
  useSearch : option bool;
  onStream : string -> Prog unit
}.

Record ChatResult := {
  text : string;
  groundingChunks : list GroundingChunk
}.

(** Truthiness of an optional boolean. *)
Definition flag (b : option bool) : bool :=
  match b with
  | Some true => true
  | _ => false
  end.

(** [image.split(',')[1] || image] *)
Definition base64Data (image : string) : string :=
  JS.or_else (nth_error (JS.split "," image) 1) image.

(** The model and the configuration [sendMessage] chooses. *)
Definition select_model (useThinking useSearch : option bool)
    : string * ChatConfig :=
  if flag useThinking then
    ("gemini-3-pro-preview",
     {| thinkingConfig := Some {| thinkingBudget := 32768 |}; tools := None |})
  else if flag useSearch then
    ("gemini-2.5-flash",
     {| thinkingConfig := None; tools := Some [GoogleSearch] |})
  else
    ("gemini-3-pro-preview", {| thinkingConfig := None; tools := None |}).

Definition userParts (message : string) (image : option string) : list ReqPart :=
  if JS.truthy_opt image then
    match image with
    | Some img =>
        [InlinePart {| mimeType := "image/png"; data := base64Data img |};
         TextPart message]
    | None => [TextPart message]
    end
  else [TextPart message].

(** [chunk.candidates?.[0]?.groundingMetadata?.groundingChunks] *)
Definition chunk_grounding (c : Chunk) : option (list GroundingChunk) :=
  match chunk_candidates c with
  | Some (c0 :: _) =>
      match groundingMetadata c0 with
      | Some g => Sdk.groundingChunks g
      | None => None
      end
  | _ => None
  end.

(** The [for await] loop over the chunks that arrive. *)
Fixpoint consume (onStream : string -> Prog unit) (cs : list Chunk)
    (fullText : string) (groundingChunks : list GroundingChunk)
    : Prog (string * list GroundingChunk) :=
  match cs with
  | [] => ret (fullText, groundingChunks)
  | chunk :: rest =>
      let fullText' :=
        if JS.truthy_opt (chunk_text chunk)
        then (fullText ++ JS.or_else (chunk_text chunk) EmptyString)%string
        else fullText in
      (if JS.truthy_opt (chunk_text chunk) then onStream fullText' else ret tt) ;;
      let groundingChunks' :=
        match chunk_grounding chunk with
        | Some g => g
        | None => groundingChunks
        end in
      consume onStream rest fullText' groundingChunks'
  end.

Definition sendMessage (o : ChatOptions) : Prog ChatResult :=
  let modelName := fst (select_model (useThinking o) (useSearch o)) in
  let config := snd (select_model (useThinking o) (useSearch o)) in
  let userParts := userParts (message o) (image o) in
  try_catch
    (result <- sendMessageStream
                 {| chat_model := modelName; chat_config := config;
                    chat_history := history o; chat_parts := userParts |} ;;
     r <- consume (onStream o) (chunks result) EmptyString [] ;;
     match failure result with
     | Some e => throw e
     | None => ret {| text := fst r; groundingChunks := snd r |}
     end)
    (fun error => console_error "Chat error:" error ;; throw error).

(** [response.candidates?.[0]?.content?.parts || []] *)
Definition response_parts (r : GenerateContentResponse) : list Part :=
  match candidates r with
  | Some (c0 :: _) =>
      match content c0 with
      | Some ct =>
          match parts ct with
          | Some ps => ps
          | None => []
          end
      | None => []
      end
  | _ => []
  end.

Definition data_url (d : InlineData) : string :=
  ("data:" ++ mimeType d ++ ";base64," ++ data d)%string.

(** The loop that returns the first inline image of the answer, and
    [null] when the loop ends. *)
Fixpoint first_image (ps : list Part) : option string :=
  match ps with
  | [] => None
  | part :: rest =>
      match inlineData part with
      | Some d => Some (data_url d)
      | None => first_image rest
      end
  end.

Definition editImage (base64Image prompt : string) : Prog (option string) :=
  let base64Data := base64Data base64Image in
  try_catch
    (response <- generateContent
                   {| model := "gemini-2.5-flash-image";
                      contents :=
                        [InlinePart {| mimeType := "image/png"; data := base64Data |};
                         TextPart prompt];
                      imageConfig := None |} ;;
     ret (first_image (response_parts response)))
    (fun error => console_error "Image edit error:" error ;; throw error).

Definition generateImage (prompt : string) (size : Types.ImageSize)
    (aspectRatio : string) : Prog (option string) :=
  try_catch
    (response <- generateContent
                   {| model := "gemini-3-pro-image-preview";
                      contents := [TextPart prompt];
                      imageConfig :=
                        Some {| imageSize := Types.size_string size;
                                Sdk.aspectRatio := aspectRatio |} |} ;;
     ret (first_image (response_parts response)))
    (fun error => console_error "Image gen error:" error ;; throw error).

End Service.

(** ** [ChatInterface] *)

Module ChatInterface.

Import Types State Async Service.
Local Open Scope async_scope.

(** The first [useState] values. *)
Definition welcome : Message :=
  message_lit model
    (Some "Welcome to Arckitek. Load a model, capture the viewport, or upload an image to analyze.")
    None None.

Definition initial : ChatState :=
  {| input := EmptyString; messages := [welcome]; isLoading := false;
     State.useThinking := false; State.useSearch := false;
     showGenModal := false;
     genSettings := {| aspectRatio := "1:1"; size := K1; Types.prompt := EmptyString |} |}.

(** The string behind a value that a truthiness test has narrowed from
    [string | null] to [string]. *)
Definition narrowed (o : option string) : string := JS.or_else o EmptyString.

(** [c => ({ title: c.web?.title || 'Source', uri: c.web?.uri || '' })] *)
Definition grounding_url (c : Sdk.GroundingChunk) : GroundingUrl :=
  match Sdk.web c with
  | Some w =>
      {| title := JS.or_else (Sdk.title w) "Source";
         uri := JS.or_else (Sdk.uri w) EmptyString |}
  | None => {| title := "Source"; uri := EmptyString |}
  end.

(** [m => ({ role: m.role, parts: [{ text: m.text || '' }] })] *)
Definition history_item (m : Message) : Sdk.HistoryItem :=
  {| Sdk.h_role := role m;
     Sdk.h_parts := [Sdk.TextPart (JS.or_else (Types.text m) EmptyString)] |}.

Section Render.

(** The props and the state of the render whose handlers run. *)
Variable initialImage : option string.
Variable onClearImage : Prog unit.
Variable st : ChatState.

Definition isEditRequest : bool :=
  JS.truthy_opt initialImage
  && (JS.includes (JS.toLowerCase (input st)) "add"
      || JS.includes (JS.toLowerCase (input st)) "remove"
      || JS.includes (JS.toLowerCase (input st)) "change"
      || JS.includes (JS.toLowerCase (input st)) "filter").

Definition handleSend : Prog unit :=
  if negb (JS.truthy (JS.trim (input st))) && negb (JS.truthy_opt initialImage)
  then ret tt
  else
    let userMsg :=
      message_lit user (Some (input st)) (JS.or_undefined initialImage) None in
    eff (setMessages (fun prev => prev ++ [userMsg])) ;;
    eff (setInput EmptyString) ;;
    eff (setIsLoading true) ;;
    try_catch_finally
      (if isEditRequest && JS.truthy_opt initialImage then
         editedImage <- editImage (narrowed initialImage)
                          (JS.or_else (Types.text userMsg) "Make requested edits") ;;
         if JS.truthy_opt editedImage then
           eff (setMessages (fun prev =>
             prev ++ [message_lit model (Some "Here is the edited visualization.")
                        editedImage None]))
         else
           eff (setMessages (fun prev =>
             prev ++ [message_lit model
                        (Some "I tried to edit the image but couldn't generate a result.")
                        None None]))
       else
         streamResponse <- sendMessage
           {| history := map history_item (messages st);
              Service.message := JS.or_else (Types.text userMsg) "Analyze this image";
              Service.image := Types.image userMsg;
              Service.useThinking := Some (State.useThinking st);
              Service.useSearch := Some (State.useSearch st);
              onStream := fun _ => ret tt |} ;;
         eff (setMessages (fun prev =>
           prev ++ [message_lit model (Some (Service.text streamResponse)) None
                      (Some (map grounding_url (groundingChunks streamResponse)))])))
      (fun e =>
         eff (setMessages (fun prev =>
           prev ++ [message_lit model (Some "Sorry, I encountered an error.") None None])))
      (eff (setIsLoading false) ;;
       if JS.truthy_opt initialImage then onClearImage else ret tt).

Definition handleGenImage : Prog unit :=
  eff (setShowGenModal false) ;;
  eff (setIsLoading true) ;;
  eff (setMessages (fun prev =>
    prev ++ [message_lit user
               (Some ("Generate " ++ size_string (size (genSettings st))
                      ++ " image: " ++ Types.prompt (genSettings st))%string)
               None None])) ;;
  try_catch_finally
    (img <- generateImage (Types.prompt (genSettings st)) (size (genSettings st))
              (aspectRatio (genSettings st)) ;;
     if JS.truthy_opt img then
       eff (setMessages (fun prev =>
         prev ++ [message_lit model (Some "Generated concept.") img None]))
     else
       eff (setMessages (fun prev =>
         prev ++ [message_lit model (Some "Failed to generate image.") None None])))
    (fun e =>
       eff (setMessages (fun prev =>
         prev ++ [message_lit model (Some "Error generating image.") None None])))
    (eff (setIsLoading false)).

End Render.

(** The chat area: [messages.map((m, i) => <div key={i}> ... </div>)],
    as the list of the keys and what each bubble shows. *)
Fixpoint bubbles_from (i : nat) (ms : list Message) : list (nat * Message) :=
  match ms with
  | [] => []
  | m :: rest => (i, m) :: bubbles_from (S i) rest
  end.

Definition bubbles (st : ChatState) : list (nat * Message) :=
  bubbles_from 0 (messages st).

End ChatInterface.

(** ** [ImageEditor] *)

Module ImageEditor.

Import State Async Service.
Local Open Scope async_scope.

Section Render.

(** The props, the mounting and the state of the render whose handlers
    run. *)
Variable imageSrc : string.
Variable onSave : string -> Prog unit.
Variable onCancel : Prog unit.
Variable i : nat.
Variable st : EditorState.

Definition handleGenerate : Prog unit :=
  if negb (JS.truthy (JS.trim (prompt st))) then ret tt
  else
    eff (setIsGenerating i true) ;;
    eff (setError i None) ;;
    try_catch_finally
      (let sourceImage := JS.or_else (generatedImage st) imageSrc in
       result <- editImage sourceImage (prompt st) ;;
       if JS.truthy_opt result then
         eff (setGeneratedImage i result) ;;
         eff (setPrompt i EmptyString)
       else
         eff (setError i (Some "Could not generate edit. Try a different prompt.")))
      (fun e =>
         console_error EmptyString e ;;
         eff (setError i (Some "An error occurred during generation.")))
      (eff (setIsGenerating i false)).

Definition handleSave : Prog unit :=
  if JS.truthy_opt (generatedImage st)
  then onSave (JS.or_else (generatedImage st) EmptyString)
  else ret tt.

(** The image the editor shows. *)
Definition activeImage : string := JS.or_else (generatedImage st) imageSrc.

End Render.

End ImageEditor.

(** ** [App] *)

Module App.

Import State Async Service.
Local Open Scope async_scope.

Definition handleEditorSave (newImg : string) : Prog unit :=
  eff (setCapturedImage (Some newImg)) ;;
  eff (setIsEditing false).

(** [reader.onload] of [handleFileChange], for a result that is a string. *)
Definition fileLoaded (result : string) : Prog unit :=
  eff (setCapturedImage (Some result)).

Definition handleEditClick (capturedImage : option string) : Prog unit :=
  if JS.truthy_opt capturedImage then eff (setIsEditing true)
  else eff (alert "Please upload an image first to edit.").

(** The callbacks [App] hands to its children. *)
Definition onClearImage : Prog unit := eff (setCapturedImage None).
Definition onCancel : Prog unit := eff (setIsEditing false).

Definition initial : UI :=
  {| capturedImage := None; isEditing := false; chat := ChatInterface.initial;
     editor := None; mounts := 0; console := []; alerts := [] |}.

End App.

(** ** The running application

    What the user and the service can do, one event at a time.  An
    event of an element runs the handler of the current render; an
    element that is not rendered, or a button that is [disabled], gives
    no handler.  A handler runs until it ends or suspends on a request;
    a suspended handler waits in [pending] until its request settles. *)

Module System.

Import Types State Async Service.

Definition Task := Async.Task UI unit.

Record Sys := {
  ui : UI;
  pending : list Task;
  unhandled : list Sdk.Exn
}.

Inductive Event :=
| FileLoaded (result : string)
| ClickEdit
| ChatType (v : string)
| ChatEnter
| ClickSend
| ToggleThinking
| ToggleSearch
| ToggleGenModal
| GenPrompt (v : string)
| GenSize (v : ImageSize)
| GenAspect (v : string)
| ClickGenerateImage
| ClickRemove
| EditorType (v : string)
| EditorEnter
| EditorClickGenerate
| EditorRevert
| EditorClickSave
| EditorClose
| Settle (n : nat) (o : Settlement).

(** [handleSend] as [App] and the current render instantiate it. *)
Definition chat_handleSend (u : UI) : Prog unit :=
  ChatInterface.handleSend (capturedImage u) App.onClearImage (chat u).

(** The handlers of [ImageEditor], whose [imageSrc] is [capturedImage]. *)
Definition editor_handleGenerate (u : UI) (m : Mounted) : Prog unit :=
  ImageEditor.handleGenerate (ChatInterface.narrowed (capturedImage u))
    (instance m) (cells m).

Definition editor_handleSave (m : Mounted) : Prog unit :=
  ImageEditor.handleSave App.handleEditorSave (cells m).

Definition on_editor (u : UI) (f : Mounted -> option (Prog unit))
    : option (Prog unit) :=
  match editor u with
  | Some m => f m
  | None => None
  end.

(** The JSX: which handler an event of the user runs. *)
Definition handler (u : UI) (ev : Event) : option (Prog unit) :=
  match ev with
  | FileLoaded result => Some (App.fileLoaded result)
  | ClickEdit => Some (App.handleEditClick (capturedImage u))
  | ChatType v => Some (eff (setInput v))
  | ChatEnter => Some (chat_handleSend u)
  | ClickSend =>
      if isLoading (chat u) then None else Some (chat_handleSend u)
  | ToggleThinking =>
      Some (eff (setUseThinking (negb (State.useThinking (chat u)))))
  | ToggleSearch =>
      Some (eff (setUseSearch (negb (State.useSearch (chat u)))))
  | ToggleGenModal =>
      Some (eff (setShowGenModal (negb (showGenModal (chat u)))))
  | GenPrompt v =>
      if showGenModal (chat u) then
        Some (eff (setGenSettings
          {| aspectRatio := aspectRatio (genSettings (chat u));
             size := size (genSettings (chat u)); Types.prompt := v |}))
      else None
  | GenSize v =>
      if showGenModal (chat u) then
        Some (eff (setGenSettings
          {| aspectRatio := aspectRatio (genSettings (chat u));
             size := v; Types.prompt := Types.prompt (genSettings (chat u)) |}))
      else None
  | GenAspect v =>
      if showGenModal (chat u) then
        Some (eff (setGenSettings
          {| aspectRatio := v; size := size (genSettings (chat u));
             Types.prompt := Types.prompt (genSettings (chat u)) |}))
      else None
  | ClickGenerateImage =>
      if showGenModal (chat u) then Some (ChatInterface.handleGenImage (chat u))
      else None
  | ClickRemove =>
      if JS.truthy_opt (capturedImage u) then Some App.onClearImage else None
  | EditorType v =>
      on_editor u (fun m => Some (eff (setPrompt (instance m) v)))
  | EditorEnter =>
      on_editor u (fun m => Some (editor_handleGenerate u m))
  | EditorClickGenerate =>
      on_editor u (fun m =>
        if isGenerating (cells m)
           || negb (JS.truthy (JS.trim (State.prompt (cells m))))
        then None
        else Some (editor_handleGenerate u m))
  | EditorRevert =>
      on_editor u (fun m =>
        if JS.truthy_opt (generatedImage (cells m))
        then Some (eff (setGeneratedImage (instance m) None))
        else None)
  | EditorClickSave =>
      on_editor u (fun m =>
        if negb (JS.truthy_opt (generatedImage (cells m))) then None
        else Some (editor_handleSave m))
  | EditorClose => on_editor u (fun _ => Some App.onCancel)
  | Settle _ _ => None
  end.

(** Run a handler, or the rest of one, and render. *)
Definition launch (u : UI) (waiting : list Task) (thrown : list Sdk.Exn)
    (p : Prog unit) : Sys :=
  match run p u with
  | (u', inl (Ok _)) =>
      {| ui := reconcile u'; pending := waiting; unhandled := thrown |}
  | (u', inl (Throw e)) =>
      {| ui := reconcile u'; pending := waiting; unhandled := thrown ++ [e] |}
  | (u', inr t) =>
      {| ui := reconcile u'; pending := waiting ++ [t]; unhandled := thrown |}
  end.

Definition without {A} (n : nat) (l : list A) : list A :=
  firstn n l ++ skipn (S n) l.

Definition step (s : Sys) (ev : Event) : Sys :=
  match ev with
  | Settle n o =>
      match nth_error (pending s) n with
      | Some t =>
          match resume t o with
          | Some p => launch (ui s) (without n (pending s)) (unhandled s) p
          | None => s
          end
      | None => s
      end
  | _ =>
      match handler (ui s) ev with
      | Some p => launch (ui s) (pending s) (unhandled s) p
      | None => s
      end
  end.

Definition run_events (s : Sys) (evs : list Event) : Sys :=
  fold_left step evs s.

Definition start : Sys :=
  {| ui := App.initial; pending := []; unhandled := [] |}.

End System.

(** ** [ThreeDViewer]: the placeholder animation

    The arithmetic of the animation is that of JavaScript numbers.  The
    embedding is over any type [num] with the operations the code uses,
    so that every statement below holds of the doubles of the program
    as of any other reading of them. *)

Module ThreeDViewer.

Section Canvas.

Variable num : Type.
Variables add sub mul div : num -> num -> num.
Variable neg : num -> num.
Variables cos sin : num -> num.
Variable PI : num.
(** [ofZ z] is the number of the integer literal [z]; [dec m k] that of
    the decimal literal [m / 10^k]. *)
Variable ofZ : Z -> num.
Variable dec : Z -> nat -> num.

Definition point : Type := num * num.

(** *** The 2D context, as far as the animation drives it *)

Inductive Cmd :=
| Resize (w h : num)
| ClearRect (x y w h : num)
| Save
| Translate (x y : num)
| StrokeStyle (color : string)
| LineWidth (w : num)
| BeginPath
| MoveTo (x y : num)
| LineTo (x y : num)
| Stroke
| Restore.

Inductive Kind :=
| KResize | KClearRect | KSave | KTranslate | KStrokeStyle | KLineWidth
| KBeginPath | KMoveTo | KLineTo | KStroke | KRestore.

Definition kind (c : Cmd) : Kind :=
  match c with
  | Resize _ _ => KResize
  | ClearRect _ _ _ _ => KClearRect
  | Save => KSave
  | Translate _ _ => KTranslate
  | StrokeStyle _ => KStrokeStyle
  | LineWidth _ => KLineWidth
  | BeginPath => KBeginPath
  | MoveTo _ _ => KMoveTo
  | LineTo _ _ => KLineTo
  | Stroke => KStroke
  | Restore => KRestore
  end.

(** The drawing state that [save] and [restore] keep: the transform,
    which the animation only ever translates, and the stroke style. *)
Record DrawState := {
  origin : point;
  strokeStyle : string;
  lineWidth : num
}.

Record Stroked := {
  ink : string;
  pen_width : num;
  segments : list (point * point)
}.

Record Context := {
  current : DrawState;
  saved : list DrawState;
  path : list (point * point);
  pen : option point;
  strokes : list Stroked
}.

Definition default_state : DrawState :=
  {| origin := (ofZ 0, ofZ 0); strokeStyle := "#000000"; lineWidth := ofZ 1 |}.

Definition with_current (d : DrawState) (c : Context) : Context :=
  {| current := d; saved := saved c; path := path c; pen := pen c;
     strokes := strokes c |}.

(** Where the point [(x, y)] of the user space lies on the canvas. *)
Definition device (c : Context) (x y : num) : point :=
  (add (fst (origin (current c))) x, add (snd (origin (current c))) y).

Definition exec (c : Context) (cmd : Cmd) : Context :=
  match cmd with
  | Resize _ _ =>
      {| current := default_state; saved := []; path := []; pen := None;
         strokes := [] |}
  | ClearRect _ _ _ _ =>
      {| current := current c; saved := saved c; path := path c; pen := pen c;
         strokes := [] |}
  | Save =>
      {| current := current c; saved := current c :: saved c; path := path c;
         pen := pen c; strokes := strokes c |}
  | Translate x y =>
      with_current
        {| origin := device c x y; strokeStyle := strokeStyle (current c);
           lineWidth := lineWidth (current c) |} c
  | StrokeStyle color =>
      with_current
        {| origin := origin (current c); strokeStyle := color;
           lineWidth := lineWidth (current c) |} c
  | LineWidth w =>
      with_current
        {| origin := origin (current c); strokeStyle := strokeStyle (current c);
           lineWidth := w |} c
  | BeginPath =>
      {| current := current c; saved := saved c; path := []; pen := None;
         strokes := strokes c |}
  | MoveTo x y =>
      {| current := current c; saved := saved c; path := path c;
         pen := Some (device c x y); strokes := strokes c |}
  | LineTo x y =>
      {| current := current c; saved := saved c;
         path :=
           match pen c with
           | Some p => path c ++ [(p, device c x y)]
           | None => path c
           end;
         pen := Some (device c x y); strokes := strokes c |}
  | Stroke =>
      {| current := current c; saved := saved c; path := path c; pen := pen c;
         strokes :=
           strokes c ++
           [{| ink := strokeStyle (current c);
               pen_width := lineWidth (current c);
               segments := path c |}] |}
  | Restore =>
      match saved c with
      | d :: rest =>
          {| current := d; saved := rest; path := path c; pen := pen c;
             strokes := strokes c |}
      | [] => c
      end
  end.

Definition exec_all (c : Context) (cmds : list Cmd) : Context :=
  fold_left exec cmds c.

(** *** [drawCube] *)

Definition cube : list (Z * Z * Z) :=
  [(-1, -1, -1); (1, -1, -1); (1, 1, -1); (-1, 1, -1);
   (-1, -1, 1); (1, -1, 1); (1, 1, 1); (-1, 1, 1)]%Z.

Definition edges : list (nat * nat) :=
  [(0, 1); (1, 2); (2, 3); (3, 0);
   (4, 5); (5, 6); (6, 7); (7, 4);
   (0, 4); (1, 5); (2, 6); (3, 7)].

(** The function mapped over the vertices. *)
Definition project (size rotX rotY : num) (v : Z * Z * Z) : point :=
  let '(v0, v1, v2) := v in
  let x := sub (mul (ofZ v0) (cos rotY)) (mul (ofZ v2) (sin rotY)) in
  let z := add (mul (ofZ v0) (sin rotY)) (mul (ofZ v2) (cos rotY)) in
  let y := sub (mul (ofZ v1) (cos rotX)) (mul z (sin rotX)) in
  let z := add (mul (ofZ v1) (sin rotX)) (mul z (cos rotX)) in
  let scale := div (ofZ 200) (add (ofZ 200) z) in
  (mul (mul x size) scale, mul (mul y size) scale).

Definition vertices (size rotX rotY : num) : list point :=
  map (project size rotX rotY) cube.

(** [vertices[n]]; every index of [edges] is below 8. *)
Definition vertex (vs : list point) (n : nat) : point :=
  nth n vs (ofZ 0, ofZ 0).

Definition drawCube (x y size : num) (color : string) (rotX rotY : num)
    : list Cmd :=
  let vertices := vertices size rotX rotY in
  [Save; Translate x y; StrokeStyle color; LineWidth (ofZ 2); BeginPath]
  ++ flat_map (fun edge =>
       [MoveTo (fst (vertex vertices (fst edge))) (snd (vertex vertices (fst edge)));
        LineTo (fst (vertex vertices (snd edge))) (snd (vertex vertices (snd edge)))])
     edges
  ++ [Stroke; Restore].

(** *** [render] *)

Record Shape := { offset : num; color : string; speed : num }.

Definition shapes : list Shape :=
  [{| offset := ofZ 0; color := "#4285F4"; speed := ofZ 1 |};
   {| offset := div PI (ofZ 2); color := "#EA4335"; speed := dec 8 1 |};
   {| offset := PI; color := "#FBBC05"; speed := dec 12 1 |};
   {| offset := mul PI (dec 15 1); color := "#34A853"; speed := dec 9 1 |}].

Fixpoint indexed_from {A} (n : Z) (l : list A) : list (Z * A) :=
  match l with
  | [] => []
  | a :: rest => (n, a) :: indexed_from (n + 1)%Z rest
  end.

(** One orbiting cube of a frame. *)
Definition orbiting (t cx cy : num) (entry : Z * Shape) : list Cmd :=
  let i := ofZ (fst entry) in
  let shape := snd entry in
  let orbitRadius := add (ofZ 150) (mul (sin (add (mul t (dec 2 3)) i)) (ofZ 30)) in
  let orbitAngle := add (mul (mul t (dec 1 2)) (speed shape)) (offset shape) in
  let x := add cx (mul (cos orbitAngle) orbitRadius) in
  let y := add cy (mul (mul (sin orbitAngle) orbitRadius) (dec 5 1)) in
  drawCube x y (ofZ 30) (color shape) (mul t (dec 2 2)) (add (mul t (dec 3 2)) i).

(** One frame: [None] when the container is gone, else what is drawn
    for the container's size and the counter of the next frame. *)
Definition render (t : num) (container : option (num * num))
    : option (list Cmd * num) :=
  match container with
  | None => None
  | Some (clientWidth, clientHeight) =>
      let cx := div clientWidth (ofZ 2) in
      let cy := div clientHeight (ofZ 2) in
      let pulse := add (ofZ 1) (mul (sin (mul t (dec 5 2))) (dec 2 1)) in
      Some
        ([Resize clientWidth clientHeight;
          ClearRect (ofZ 0) (ofZ 0) clientWidth clientHeight]
         ++ flat_map (orbiting t cx cy) (indexed_from 0 shapes)
         ++ drawCube cx cy (mul (ofZ 20) pulse) "#ffffff"
              (mul t (dec 1 2)) (mul (neg t) (dec 1 2)),
         add t (ofZ 1))
  end.

(** *** The transform in the words of the specification *)

Definition vec : Type := num * num * num.

Definition vec_of (v : Z * Z * Z) : vec :=
  let '(a, b, c) := v in (ofZ a, ofZ b, ofZ c).

(** Rotation about the Y axis: [y] stays. *)
Definition rotateY (a : num) (v : vec) : vec :=
  let '(x, y, z) := v in
  (sub (mul x (cos a)) (mul z (sin a)), y, add (mul x (sin a)) (mul z (cos a))).

(** Rotation about the X axis: [x] stays. *)
Definition rotateX (a : num) (v : vec) : vec :=
  let '(x, y, z) := v in
  (x, sub (mul y (cos a)) (mul z (sin a)), add (mul y (sin a)) (mul z (cos a))).

Definition perspective (z : num) : num := div (ofZ 200) (add (ofZ 200) z).

Definition placed (size rotX rotY : num) (v : Z * Z * Z) : point :=
  let '(vx', y1, z1) := rotateY rotY (vec_of v) in
  let '(_, vy', z2) := rotateX rotX (vx', y1, z1) in
  let s := perspective z2 in
  (mul (mul vx' size) s, mul (mul vy' size) s).

(** The canvas commands of one cube, by kind. *)
Definition skeleton : list Kind :=
  [KSave; KTranslate; KStrokeStyle; KLineWidth; KBeginPath]
  ++ flat_map (fun _ => [KMoveTo; KLineTo]) edges
  ++ [KStroke; KRestore].

(** The commands of one frame, by kind: the canvas is sized and
    cleared, then five cubes are drawn. *)
Definition frame_skeleton : list Kind :=
  [KResize; KClearRect]
  ++ skeleton ++ skeleton ++ skeleton ++ skeleton ++ skeleton.

(** Where a point at the offset [p] from the cube centre [(x, y)] lies
    on the canvas of the context [c]. *)
Definition on_canvas (c : Context) (x y : num) (p : point) : point :=
  (add (add (fst (origin (current c))) x) (fst p),
   add (add (snd (origin (current c))) y) (snd p)).

(** The twelve edges of the cube between the placed vertices. *)
Definition wireframe (c : Context) (x y size rotX rotY : num)
    : list (point * point) :=
  map (fun edge =>
         (on_canvas c x y (placed size rotX rotY (nth (fst edge) cube (0, 0, 0)%Z)),
          on_canvas c x y (placed size rotX rotY (nth (snd edge) cube (0, 0, 0)%Z))))
      edges.

End Canvas.

End ThreeDViewer.

(** ** Vocabulary of the properties *)

Module Spec.

Import Sdk Async Service State.

(** The request [sendMessage] configures. *)
Definition chat_request (o : ChatOptions) : option ChatRequest :=
  match first_call (sendMessage o) with
  | Some (StreamCall req) => Some req
  | _ => None
  end.

(** Extended reasoning is configured: there is a [thinkingConfig]. *)
Definition extended_reasoning (c : ChatConfig) : bool :=
  match thinkingConfig c with
  | Some _ => true
  | None => false
  end.

(** Web-search grounding is configured: [googleSearch] is among the
    tools. *)
Definition search_grounding (c : ChatConfig) : bool :=
  match tools c with
  | Some ts => existsb (fun t => match t with GoogleSearch => true end) ts
  | None => false
  end.

(** Both switches of the header turned on. *)
Definition both_switches : ChatOptions :=
  {| history := []; message := "Is this tower up to code?"; image := None;
     Service.useThinking := Some true; Service.useSearch := Some true;
     onStream := fun _ => ret tt |}.

(** [content?.parts || []] of a candidate. *)
Definition candidate_parts (c : Candidate) : list Part :=
  match content c with
  | Some ct =>
      match parts ct with
      | Some ps => ps
      | None => []
      end
  | None => []
  end.

Definition is_image_part (p : Part) : bool :=
  match inlineData p with
  | Some _ => true
  | None => false
  end.

(** An answer holds an inline image part, in any candidate. *)
Definition has_inline_image (r : GenerateContentResponse) : bool :=
  match candidates r with
  | Some cs => existsb (fun c => existsb is_image_part (candidate_parts c)) cs
  | None => false
  end.

(** The text has a word that asks for an edit. *)
Definition asks_for_edit (input : string) : bool :=
  JS.includes (JS.toLowerCase input) "add"
  || JS.includes (JS.toLowerCase input) "remove"
  || JS.includes (JS.toLowerCase input) "change"
  || JS.includes (JS.toLowerCase input) "filter".

(** The send has something to send: text that is not blank, or an
    attached image. *)
Definition has_payload (input : string) (initialImage : option string) : bool :=
  JS.truthy (JS.trim input) || JS.truthy_opt initialImage.

(** A message of the model that carries only a text. *)
Definition notice (t : string) : Types.Message :=
  Types.message_lit Types.model (Some t) None None.

(** What a program does once the request it suspended on in [u] has
    settled to [o], the state being [u2] by then. *)
Definition outcome {A} (p : Prog A) (u : UI) (o : Settlement) (u2 : UI)
    : option (UI * (Result A + Task UI A)) :=
  match run p u with
  | (_, inr t) => option_map (fun q => run q u2) (resume t o)
  | (_, inl _) => None
  end.

(** The two actions of the chat panel that call the service, with the
    handler [App] and the render give them, and what each says when the
    call fails and when the answer holds no image. *)
Inductive ChatAction :=
| Send (initialImage : option string)
| Generate.

Definition chat_handler (a : ChatAction) (st : ChatState) : Prog unit :=
  match a with
  | Send initialImage => ChatInterface.handleSend initialImage App.onClearImage st
  | Generate => ChatInterface.handleGenImage st
  end.

Definition apology (a : ChatAction) : string :=
  match a with
  | Send _ => "Sorry, I encountered an error."
  | Generate => "Error generating image."
  end.

Definition regret (a : ChatAction) : string :=
  match a with
  | Send _ => "I tried to edit the image but couldn't generate a result."
  | Generate => "Failed to generate image."
  end.

(** The request [handleSend] sends to the chat capability. *)
Definition chat_options (initialImage : option string) (st : ChatState)
    : ChatOptions :=
  {| history := map ChatInterface.history_item (messages st);
     message := JS.or_else (Some (input st)) "Analyze this image";
     image := JS.or_undefined initialImage;
     Service.useThinking := Some (State.useThinking st);
     Service.useSearch := Some (State.useSearch st);
     onStream := fun _ => ret tt |}.

(** The text is empty or holds white space only. *)
Fixpoint blank (s : string) : bool :=
  match s with
  | EmptyString => true
  | String c t => JS.isWhiteSpace c && blank t
  end.

(** The mounting [i] of the editor is there and shows the generated
    image [g]. *)
Definition generated (u : UI) (i : nat) (g : string) : Prop :=
  exists m, editor u = Some m /\ instance m = i
            /\ generatedImage (cells m) = Some g.

(** The settlement is an answer from which the service functions
    return the image [g]. *)
Definition yields (o : Settlement) (g : string) : Prop :=
  exists r, o = ContentSettles (Resolved r)
            /\ first_image (response_parts r) = Some g.

(** The task is a [handleGenerate] of the mounting [i] of the editor,
    suspended on its edit request. *)
Definition from_editor (i : nat) (t : Task UI unit) : Prop :=
  exists imageSrc st u0 u1,
    run (ImageEditor.handleGenerate imageSrc i st) u0 = (u1, inr t).

(** The rest [q] of the suspended handler [t], resumed on the
    settlement [o]: it ends normally, only appends to the transcript,
    and the editor shows no generated image but one it showed already
    or, when [t] is an edit of that mounting, one that [o] yields. *)
Definition ends_well (t : Task UI unit) (o : Settlement) (q : Prog unit) : Prop :=
  forall u, exists u' added,
    run q u = (u', inl (Ok tt))
    /\ messages (chat u') = messages (chat u) ++ added
    /\ (forall i g, generated u' i g ->
          generated u i g \/ (from_editor i t /\ yields o g)).

Definition good_task (t : Task UI unit) : Prop :=
  forall o q, resume t o = Some q -> ends_well t o q.

(** A handler as an event starts it: it either ends normally or
    suspends on one request after which it ends well; it only appends
    to the transcript and generates no image. *)
Definition starts_well (p : Prog unit) : Prop :=
  forall u, exists u' added,
    (run p u = (u', inl (Ok tt))
     \/ exists t, run p u = (u', inr t) /\ good_task t)
    /\ messages (chat u') = messages (chat u) ++ added
    /\ (forall i g, generated u' i g -> generated u i g).

(** The invariant of the running application: every handler that
    waits for the service is a good task, and no handler has thrown. *)
Definition sound (s : System.Sys) : Prop :=
  Forall good_task (System.pending s) /\ System.unhandled s = [].

(** The transcript of a state of the application. *)
Definition transcript (s : System.Sys) : list Types.Message :=
  messages (chat (System.ui s)).

(** The event answers an edit of the mounting [i] of the editor, one
    of the waiting handlers, with an answer that yields the image [g]. *)
Definition answered (s : System.Sys) (ev : System.Event) (i : nat)
    (g : string) : Prop :=
  exists n o t,
    ev = System.Settle n o /\ nth_error (System.pending s) n = Some t
    /\ from_editor i t /\ yields o g.

(** In the run [evs], an edit of the mounting [i] of the editor got an
    answer that yields the image [g]. *)
Definition successful_edit (evs : list System.Event) (i : nat) (g : string)
    : Prop :=
  exists evs1 ev evs2,
    evs = evs1 ++ ev :: evs2
    /\ answered (System.run_events System.start evs1) ev i g.

(** *** Runs of the application that the properties are tried on *)

Definition sample_image : string := "data:image/png;base64,iVBORw0KGgo=".

(** With an image attached, an edit is asked for with Enter, and Enter
    is pressed on a second edit while the call of the first is still
    outstanding. *)
Definition enter_while_loading : list System.Event :=
  [System.FileLoaded sample_image;
   System.ChatType "Add a tower"; System.ChatEnter;
   System.ChatType "Change the facade"; System.ChatEnter].

(** Generate is pressed in the generation dialog while the call of an
    edit is still outstanding. *)
Definition generate_while_loading : list System.Event :=
  [System.FileLoaded sample_image;
   System.ChatType "Add a tower"; System.ChatEnter;
   System.ToggleGenModal; System.GenPrompt "A glass pavilion";
   System.ClickGenerateImage].

(** An image is attached, an edit of it is sent with Enter, and a
    second edit is sent with Enter before the answer to the first is
    there. *)
Definition enter_twice_with_image : list System.Event :=
  [System.FileLoaded sample_image;
   System.ChatType "add a tower"; System.ChatEnter;
   System.ChatType "remove the crane"; System.ChatEnter].

(** The request carries an inline image. *)
Definition is_inline (p : ReqPart) : bool :=
  match p with
  | InlinePart _ => true
  | TextPart _ => false
  end.

Definition carries_image {A} (t : Task UI A) : bool :=
  match request_of t with
  | ContentCall req => existsb is_inline (contents req)
  | StreamCall req => existsb is_inline (chat_parts req)
  end.

(** An answer with one generated image, and a session of the editor in
    which an edit gets it. *)
Definition night_answer : GenerateContentResponse :=
  {| candidates :=
       Some [{| content :=
                  Some {| parts :=
                            Some [{| Sdk.text := None;
                                     inlineData :=
                                       Some {| mimeType := "image/png";
                                               data := "Tm9jdHVybmU=" |} |}] |};
                groundingMetadata := None |}] |}.

Definition edit_session : list System.Event :=
  [System.FileLoaded sample_image; System.ClickEdit;
   System.EditorType "Make it night time"; System.EditorEnter;
   System.Settle 0 (ContentSettles (Resolved night_answer))].

Definition night_editor : Mounted :=
  {| instance := 1;
     cells := {| prompt := EmptyString; isGenerating := false;
                 generatedImage := Some "data:image/png;base64,Tm9jdHVybmU=";
                 error := None |} |}.

End Spec.

(** ** The scene of [App] and [ThreeDViewer]

    The three cells of [App] behind the embedded scene, which no other
    handler reads or writes, with the dialog that loads a URL and what
    [ThreeDViewer] shows for its [url] prop. *)

Module Scene.

Record SceneState := {
  showLinkInput : bool;
  splineUrl : string;
  tempUrl : string
}.

Definition initial : SceneState :=
  {| showLinkInput := false; splineUrl := EmptyString; tempUrl := EmptyString |}.

Definition setShowLinkInput (v : bool) (st : SceneState) : SceneState :=
  {| showLinkInput := v; splineUrl := splineUrl st; tempUrl := tempUrl st |}.

Definition setSplineUrl (v : string) (st : SceneState) : SceneState :=
  {| showLinkInput := showLinkInput st; splineUrl := v; tempUrl := tempUrl st |}.

Definition setTempUrl (v : string) (st : SceneState) : SceneState :=
  {| showLinkInput := showLinkInput st; splineUrl := splineUrl st; tempUrl := v |}.

Definition handleLoadUrl (st : SceneState) : SceneState :=
  if JS.truthy (tempUrl st)
  then setShowLinkInput false (setSplineUrl (tempUrl st) st)
  else st.

(** The buttons of the sidebar and of the dialog; the dialog is
    rendered only while [showLinkInput]. *)
Inductive Event :=
| ClickCube
| ClickLink
| TypeUrl (v : string)
| ClickCancel
| ClickLoad.

Definition step (st : SceneState) (ev : Event) : SceneState :=
  match ev with
  | ClickCube => setSplineUrl EmptyString st
  | ClickLink => setShowLinkInput true st
  | TypeUrl v => if showLinkInput st then setTempUrl v st else st
  | ClickCancel => if showLinkInput st then setShowLinkInput false st else st
  | ClickLoad => if showLinkInput st then handleLoadUrl st else st
  end.

Definition run_events (st : SceneState) (evs : list Event) : SceneState :=
  fold_left step evs st.

(** What [ThreeDViewer] renders: the [iframe] of the scene when [url]
    is truthy, else the canvas of the placeholder animation. *)
Inductive View :=
| Embedded (src : string)
| Placeholder.

Definition view (st : SceneState) : View :=
  if JS.truthy (splineUrl st) then Embedded (splineUrl st) else Placeholder.

End Scene.

(** ** Vocabulary of the further properties *)

Module Notions.

Import Sdk Async Service State.

(** The text a chunk adds to the answer: its [text] when that is
    truthy, nothing otherwise. *)
Definition chunk_string (c : Chunk) : string :=
  JS.or_else (chunk_text c) EmptyString.

(** The texts of the chunks, one after the other. *)
Fixpoint joined (cs : list Chunk) : string :=
  match cs with
  | [] => EmptyString
  | c :: rest => (chunk_string c ++ joined rest)%string
  end.

(** What is said after each chunk that has a text, the answer so far
    being [fullText]. *)
Fixpoint spoken (fullText : string) (cs : list Chunk) : list string :=
  match cs with
  | [] => []
  | c :: rest =>
      if JS.truthy_opt (chunk_text c)
      then (fullText ++ chunk_string c)%string
           :: spoken (fullText ++ chunk_string c)%string rest
      else spoken fullText rest
  end.

(** The grounding chunks of the last chunk that has some, [g0] when
    none has. *)
Definition last_grounding (cs : list Chunk) (g0 : list GroundingChunk)
    : list GroundingChunk :=
  fold_left (fun g c => match chunk_grounding c with
                        | Some g' => g'
                        | None => g
                        end) cs g0.

(** A sequence of state updates before a program. *)
Definition effs {A} (fs : list (UI -> UI)) (k : Prog A) : Prog A :=
  fold_right (fun f p => Eff f p) k fs.

(** The state after a sequence of updates. *)
Definition after (fs : list (UI -> UI)) (u : UI) : UI :=
  fold_left (fun v f => f v) fs u.

(** The options of a call whose [onStream] callback updates the state
    by [f]. *)
Definition options (h : list HistoryItem) (m : string) (i : option string)
    (t s : option bool) (f : string -> UI -> UI) : ChatOptions :=
  {| history := h; message := m; image := i;
     Service.useThinking := t; Service.useSearch := s;
     onStream := fun said => eff (f said) |}.

(** The text has no comma. *)
Fixpoint no_comma (s : string) : bool :=
  match s with
  | EmptyString => true
  | String c t => negb (Ascii.eqb c ",") && no_comma t
  end.


(** The words [handleSend] takes as a request for an edit. *)
Definition edit_words : list string := ["add"; "remove"; "change"; "filter"].

(** The text of a message of the transcript: its [text], and the
    empty text when it has none. *)
Definition said (m : Types.Message) : string :=
  match Types.text m with
  | Some t => t
  | None => EmptyString
  end.

(** An item of the history that holds one text and nothing else. *)
Definition text_only (h : HistoryItem) : bool :=
  match h_parts h with
  | [TextPart _] => true
  | _ => false
  end.

(** A waiting handler whose end, whatever the service answers, leaves
    [isLoading] false; and one whose end leaves [isLoading] as it is. *)
Definition clears_loading (t : Task UI unit) : Prop :=
  forall o q, resume t o = Some q ->
    forall u, exists u', run q u = (u', inl (Ok tt))
                         /\ isLoading (chat u') = false.

Definition keeps_loading (t : Task UI unit) : Prop :=
  forall o q, resume t o = Some q ->
    forall u, exists u', run q u = (u', inl (Ok tt))
                         /\ isLoading (chat u') = isLoading (chat u).

(** A handler as an event starts it, by what it does to [isLoading]:
    it ends and leaves it, or it suspends having set it, to clear it at
    its end, or it suspends and leaves it all along. *)
Definition starts_tidy (p : Prog unit) : Prop :=
  forall u, exists u',
    (run p u = (u', inl (Ok tt)) /\ isLoading (chat u') = isLoading (chat u))
    \/ (exists t, run p u = (u', inr t)
                  /\ (clears_loading t
                      \/ (keeps_loading t
                          /\ isLoading (chat u') = isLoading (chat u)))).

(** While [isLoading], a handler waits that will clear it. *)
Definition tidy (s : System.Sys) : Prop :=
  Forall (fun t => clears_loading t \/ keeps_loading t) (System.pending s)
  /\ (isLoading (chat (System.ui s)) = true ->
      Exists clears_loading (System.pending s)).

(** [App] has rendered the state: the editor is there exactly while
    [isEditing && capturedImage]. *)
Definition rendered (u : UI) : Prop :=
  match editor u with
  | Some _ => isEditing u && JS.truthy_opt (capturedImage u) = true
  | None => isEditing u && JS.truthy_opt (capturedImage u) = false
  end.

(** The request of an edit of the image [source] by [prompt]. *)
Definition edit_request (source prompt : string) : Request :=
  ContentCall
    {| model := "gemini-2.5-flash-image";
       contents := [InlinePart {| mimeType := "image/png";
                                  data := base64Data source |};
                    TextPart prompt];
       imageConfig := None |}.

End Notions.

(** ** The animation in exact arithmetic

    [ThreeDViewer] read over the real numbers: the operations are those
    of the reals, and a decimal literal is the rational it writes. *)

From Stdlib Require Reals Lra.

Module RealCube.

Import Reals.
Local Open Scope R_scope.

Definition dec (m : Z) (k : nat) : R := IZR m / 10 ^ k.

Definition placed : R -> R -> R -> Z * Z * Z -> R * R :=
  ThreeDViewer.placed R Rplus Rminus Rmult Rdiv cos sin IZR.

Definition vertices : R -> R -> R -> list (R * R) :=
  ThreeDViewer.vertices R Rplus Rminus Rmult Rdiv cos sin IZR.

Definition render : R -> option (R * R)
    -> option (list (ThreeDViewer.Cmd R) * R) :=
  ThreeDViewer.render R Rplus Rminus Rmult Rdiv Ropp cos sin PI IZR dec.

(** How far behind the picture plane a vertex lies after the two
    rotations: the [z] the perspective divides by. *)
Definition depth (rotX rotY : R) (v : Z * Z * Z) : R :=
  snd (ThreeDViewer.rotateX R Rplus Rminus Rmult cos sin rotX
         (ThreeDViewer.rotateY R Rplus Rminus Rmult cos sin rotY
            (ThreeDViewer.vec_of R IZR v))).

(** The centres of the cubes a list of commands draws: where it
    translates to. *)
Definition centres (cmds : list (ThreeDViewer.Cmd R)) : list (R * R) :=
  flat_map (fun c => match c with
                     | ThreeDViewer.Translate _ x y => [(x, y)]
                     | _ => []
                     end) cmds.

End RealCube.

(** * Properties *)

Module ServiceFacts.

Import Sdk Async Service Spec.

(** [sendMessage] always issues its one streamed chat request. *)
Lemma chat_request_some (o : ChatOptions) :
  chat_request o =
    Some {| chat_model := fst (select_model (useThinking o) (useSearch o));
            chat_config := snd (select_model (useThinking o) (useSearch o));
            chat_history := history o;
            chat_parts := userParts (message o) (image o) |}.
Proof.
  reflexivity.
Qed.

(** The data URI prefix is stripped from what is sent. *)
Example base64Data_of_data_url :
  base64Data sample_image = "iVBORw0KGgo="
  /\ base64Data "iVBORw0KGgo=" = "iVBORw0KGgo=".
Proof. split; reflexivity. Qed.

(** C4, as stated, fails: with both switches on, [sendMessage] asks for
    extended reasoning and leaves web-search grounding out. *)
Lemma sendMessage_search_lost_under_thinking :
  flag (useThinking both_switches) = true
  /\ flag (useSearch both_switches) = true
  /\ option_map (fun r => search_grounding (chat_config r))
       (chat_request both_switches) = Some false.
Proof. repeat split. Qed.

(** C4 (amended): every call of [sendMessage] configures extended
    reasoning exactly when [useThinking] is true, and web-search
    grounding exactly when [useSearch] is true and [useThinking] is
    not: reasoning takes precedence over search. *)
Theorem sendMessage_config (o : ChatOptions) :
  exists req,
    chat_request o = Some req
    /\ extended_reasoning (chat_config req) = flag (useThinking o)
    /\ search_grounding (chat_config req)
       = flag (useSearch o) && negb (flag (useThinking o)).
Proof.
  eexists. split; [apply chat_request_some |].
  unfold select_model.
  destruct (flag (useThinking o)), (flag (useSearch o)); simpl; auto.
Qed.

End ServiceFacts.

Module ChatFacts.

Import Types State Sdk Async Service Spec ChatInterface.

(** The loop over the chunks ends with a value when the callback does
    nothing, as the one [handleSend] passes. *)
Lemma consume_silent (cs : list Chunk) :
  forall fullText grounding,
    exists r, consume (fun _ => ret tt) cs fullText grounding = ret r.
Proof.
  induction cs as [|c cs IH]; intros fullText grounding; simpl.
  - eauto.
  - destruct (JS.truthy_opt (chunk_text c)); simpl; apply IH.
Qed.

(** Case analysis on what a request settles to. *)
Ltac settle_cases o :=
  destruct o as [[?r|?e]|[[?cs [?e|]]|?e]]; simpl in *;
  try match goal with
      | |- context [consume _ ?cs ?a ?b] =>
          let r := fresh "r" in
          let Hr := fresh "Hr" in
          destruct (consume_silent cs a b) as [r Hr]; rewrite Hr; simpl
      end.

(** Case analysis on the image an answer yields, if any. *)
Ltac image_cases :=
  repeat match goal with
         | |- context [first_image ?ps] =>
             destruct (first_image ps) as [?img|] eqn:?; simpl
         | |- context [JS.truthy ?s] =>
             destruct (JS.truthy s) eqn:?; simpl
         end.

(** Case analysis on the path [handleSend] takes; the facts about the
    handler are to be in the goal. *)
Ltac which_send initialImage st :=
  unfold outcome, handleSend, isEditRequest, has_payload, asks_for_edit;
  destruct (JS.truthy (JS.trim (input st)));
  destruct (JS.truthy_opt initialImage) eqn:?;
  destruct (JS.includes (JS.toLowerCase (input st)) "add"
            || JS.includes (JS.toLowerCase (input st)) "remove"
            || JS.includes (JS.toLowerCase (input st)) "change"
            || JS.includes (JS.toLowerCase (input st)) "filter") eqn:?;
  simpl; try discriminate.

(** [trim] leaves nothing exactly of the blank texts. *)
Lemma trimEnd_keeps (c : ascii) (t : string) :
  JS.isWhiteSpace c = false -> JS.truthy (JS.trimEnd (String c t)) = true.
Proof.
  intros Hc. simpl. destruct (JS.trimEnd t); [rewrite Hc |]; reflexivity.
Qed.

Lemma trim_blank (s : string) : JS.truthy (JS.trim s) = negb (blank s).
Proof.
  unfold JS.trim. induction s as [|c t IH]; [reflexivity |].
  cbn [JS.trimStart blank].
  destruct (JS.isWhiteSpace c) eqn:Hc.
  - exact IH.
  - apply trimEnd_keeps, Hc.
Qed.

(** C8: a send with an empty or white-space-only input and no attached
    image does nothing: the handler ends at once, in the state it
    started in and without a request; so the transcript, the input,
    [isLoading] and the attached image are as before and nothing waits
    for the service. *)
Theorem handleSend_blank_is_noop (s : System.Sys) (ev : System.Event) :
  blank (input (chat (System.ui s))) = true ->
  JS.truthy_opt (capturedImage (System.ui s)) = false ->
  ev = System.ChatEnter \/ ev = System.ClickSend ->
  run (System.chat_handleSend (System.ui s)) (System.ui s)
    = (System.ui s, inl (Ok tt))
  /\ chat (System.ui (System.step s ev)) = chat (System.ui s)
  /\ capturedImage (System.ui (System.step s ev)) = capturedImage (System.ui s)
  /\ System.pending (System.step s ev) = System.pending s.
Proof.
  intros Hblank Himage Hev.
  assert (Hrun : run (System.chat_handleSend (System.ui s)) (System.ui s)
                 = (System.ui s, inl (Ok tt))).
  { unfold System.chat_handleSend, handleSend.
    rewrite trim_blank, Hblank, Himage. reflexivity. }
  split; [exact Hrun |].
  assert (Hlaunch : forall w t,
            chat (System.ui (System.launch (System.ui s) w t
                     (System.chat_handleSend (System.ui s)))) = chat (System.ui s)
            /\ capturedImage (System.ui (System.launch (System.ui s) w t
                     (System.chat_handleSend (System.ui s))))
               = capturedImage (System.ui s)
            /\ System.pending (System.launch (System.ui s) w t
                     (System.chat_handleSend (System.ui s))) = w).
  { intros w t. unfold System.launch. rewrite Hrun. simpl.
    unfold reconcile.
    destruct (isEditing (System.ui s) && JS.truthy_opt (capturedImage (System.ui s)));
      [destruct (editor (System.ui s)) |]; auto. }
  destruct Hev as [-> | ->]; simpl.
  - apply Hlaunch.
  - destruct (isLoading (chat (System.ui s))); [auto | apply Hlaunch].
Qed.

Lemma handleSend_blank_is_noop_witness :
  blank (input (chat (System.ui System.start))) = true
  /\ JS.truthy_opt (capturedImage (System.ui System.start)) = false
  /\ System.pending (System.step System.start System.ChatEnter) = [].
Proof.
  split; [reflexivity | split; [reflexivity |]].
  apply (handleSend_blank_is_noop System.start System.ChatEnter);
    [reflexivity | reflexivity | left; reflexivity].
Defined.

(** C1: when the call of a chat, image-edit or image-generation action
    of the chat panel throws (the request is rejected, or the stream
    fails while it is read), the rest of the handler ends normally and
    without a further request: it appends one message of the model, the
    apology of the action, to the transcript as it stands, and leaves
    [isLoading] false. *)
Theorem service_failure_is_reported (a : ChatAction) (st : ChatState)
    (u u2 : UI) (o : Settlement) (e : Exn)
    (x : UI * (Result unit + Task UI unit)) :
  thrown o = Some e ->
  outcome (chat_handler a st) u o u2 = Some x ->
  exists u3,
    x = (u3, inl (Ok tt))
    /\ messages (chat u3) = messages (chat u2) ++ [notice (apology a)]
    /\ isLoading (chat u3) = false.
Proof.
  destruct a as [initialImage |]; cbn [chat_handler apology].
  - which_send initialImage st; intros Hthrown;
      settle_cases o; try discriminate;
      intros [= <-]; eexists; repeat split.
  - unfold outcome, handleGenImage; simpl; intros Hthrown.
    settle_cases o; try discriminate;
      intros [= <-]; eexists; repeat split.
Qed.

Lemma service_failure_is_reported_witness :
  let st := System.ui (System.step System.start (System.ChatType "Is this a dome?")) in
  let o := StreamSettles (Rejected (Error "Failed to fetch")) in
  thrown o = Some (Error "Failed to fetch")
  /\ exists x u3,
       outcome (chat_handler (Send None) (chat st)) st o st = Some x
       /\ x = (u3, inl (Ok tt))
       /\ messages (chat u3)
          = messages (chat st) ++ [notice "Sorry, I encountered an error."]
       /\ isLoading (chat u3) = false.
Proof.
  intros st o. split; [reflexivity |].
  eexists. 
  destruct (service_failure_is_reported (Send None) (chat st) st st o
              (Error "Failed to fetch") _ eq_refl eq_refl) as [u3 H].
  exists u3. split; [reflexivity | exact H].
Defined.

(** The edit heuristic looks for the four words anywhere in the
    lowercased text, inside other words too. *)
Example asks_for_edit_samples :
  asks_for_edit "Please ADD a tower" = true
  /\ asks_for_edit "What is the address?" = true
  /\ asks_for_edit "Describe the facade" = false.
Proof. repeat split. Qed.

(** C3, as stated, fails: a send with nothing to send (the state the
    application starts in) invokes no capability at all. *)
Lemma blank_send_invokes_nothing :
  has_payload (input ChatInterface.initial) None = false
  /\ first_call (chat_handler (Send None) ChatInterface.initial) = None
  /\ System.pending (System.step System.start System.ChatEnter) = [].
Proof. repeat split. Qed.

(** The requests of the three capabilities differ, whatever the
    arguments. *)
Lemma generateImage_request_differs (prompt : string) (size : ImageSize)
    (ar : string) (base64Image prompt' : string) (o : ChatOptions) :
  first_call (generateImage prompt size ar) <> first_call (editImage base64Image prompt')
  /\ first_call (generateImage prompt size ar) <> first_call (sendMessage o).
Proof. split; simpl; discriminate. Qed.

(** C3 (amended): every send that has something to send (an input that
    is not blank, or an attached image) invokes exactly one capability:
    it issues one request and, once that has settled, ends without
    another.  The request is that of [editImage] when an image is
    attached and the lowercased input contains 'add', 'remove', 'change'
    or 'filter', and that of [sendMessage] otherwise; it is never that
    of [generateImage], which the generate action invokes. *)
Theorem send_invokes_one_capability (initialImage : option string)
    (st : ChatState) :
  has_payload (input st) initialImage = true ->
  let p := handleSend initialImage App.onClearImage st in
  first_call p
    = (if JS.truthy_opt initialImage && asks_for_edit (input st)
       then first_call (editImage (narrowed initialImage)
                          (JS.or_else (Some (input st)) "Make requested edits"))
       else first_call (sendMessage (chat_options initialImage st)))
  /\ (forall u, exists u1 t, run p u = (u1, inr t) /\ first_call p = Some (request_of t))
  /\ (forall u o u2 x, outcome p u o u2 = Some x -> exists u3, x = (u3, inl (Ok tt)))
  /\ (forall prompt size ar, first_call p <> first_call (generateImage prompt size ar))
  /\ first_call (handleGenImage st)
     = first_call (generateImage (Types.prompt (genSettings st))
                     (size (genSettings st)) (Types.aspectRatio (genSettings st))).
Proof.
  intros Hpayload p. subst p. revert Hpayload.
  which_send initialImage st; intros _.
  all: repeat split; try discriminate; try (intros u; eauto).
  all: intros o u2 x; settle_cases o; try discriminate;
    image_cases; intros [= <-]; eauto.
Qed.

Lemma send_invokes_one_capability_witness :
  let st := chat (System.ui (System.step System.start (System.ChatType "Please ADD a tower"))) in
  let img := Some "data:image/png;base64,iVBORw0KGgo=" in
  has_payload (input st) img = true
  /\ first_call (handleSend img App.onClearImage st)
     = first_call (editImage "data:image/png;base64,iVBORw0KGgo=" "Please ADD a tower")
  /\ exists u3,
       outcome (handleSend img App.onClearImage st) App.initial
         (ContentSettles (Rejected (Error "Failed to fetch"))) App.initial
       = Some (u3, inl (Ok tt)).
Proof.
  intros st img.
  destruct (send_invokes_one_capability img st eq_refl) as (Hfirst & _ & Hend & _).
  split; [reflexivity | split; [exact Hfirst |]].
  destruct (Hend App.initial (ContentSettles (Rejected (Error "Failed to fetch")))
              App.initial _ eq_refl) as [u3 H].
  exists u3. rewrite <- H. reflexivity.
Defined.

(** An answer without an inline image part gives the loop of
    [editImage] and [generateImage] nothing to return. *)
Lemma first_image_none (ps : list Part) :
  existsb is_image_part ps = false -> first_image ps = None.
Proof.
  induction ps as [|part rest IH]; [reflexivity |].
  simpl. unfold is_image_part at 1.
  destruct (inlineData part); simpl; [discriminate | exact IH].
Qed.

Lemma no_image_no_result (r : GenerateContentResponse) :
  has_inline_image r = false -> first_image (response_parts r) = None.
Proof.
  unfold has_inline_image, response_parts.
  destruct (candidates r) as [[|c0 cs]|]; try reflexivity.
  simpl. intros H. apply orb_false_elim in H as [H _].
  apply first_image_none in H. exact H.
Qed.

(** C7: on an answer that holds no inline image part, [editImage] and
    [generateImage] return [null] without throwing and without touching
    the state; the chat panel then appends one message of the model
    that says so, and the editor shows its inline error; each handler
    ends normally. *)
Theorem empty_answer_is_reported (r : GenerateContentResponse) :
  has_inline_image r = false ->
  (forall base64Image prompt u u2,
      outcome (editImage base64Image prompt) u (ContentSettles (Resolved r)) u2
      = Some (u2, inl (Ok None)))
  /\ (forall prompt size ar u u2,
      outcome (generateImage prompt size ar) u (ContentSettles (Resolved r)) u2
      = Some (u2, inl (Ok None)))
  /\ (forall a st u u2 x,
      outcome (chat_handler a st) u (ContentSettles (Resolved r)) u2 = Some x ->
      exists u3,
        x = (u3, inl (Ok tt))
        /\ messages (chat u3) = messages (chat u2) ++ [notice (regret a)])
  /\ (forall imageSrc i st u u2 x,
      outcome (ImageEditor.handleGenerate imageSrc i st) u
        (ContentSettles (Resolved r)) u2 = Some x ->
      x = (setIsGenerating i false
             (setError i (Some "Could not generate edit. Try a different prompt.") u2),
           inl (Ok tt))).
Proof.
  intros Hempty. apply no_image_no_result in Hempty.
  repeat split.
  - intros. unfold outcome. simpl. rewrite Hempty. reflexivity.
  - intros. unfold outcome. simpl. rewrite Hempty. reflexivity.
  - intros a st u u2 x. destruct a as [initialImage |]; cbn [chat_handler regret].
    + which_send initialImage st; try rewrite Hempty; simpl;
        intros [= <-]; eexists; repeat split.
    + unfold outcome, handleGenImage. simpl. rewrite Hempty. simpl.
      intros [= <-]; eexists; repeat split.
  - intros imageSrc i st u u2 x. unfold outcome, ImageEditor.handleGenerate.
    destruct (JS.truthy (JS.trim (prompt st))); simpl; try discriminate.
    rewrite Hempty. simpl. intros [= <-]. reflexivity.
Qed.

Lemma empty_answer_is_reported_witness :
  let r := {| candidates :=
                Some [{| content := Some {| parts := Some [{| Sdk.text := Some "I cannot edit this image.";
                                                             inlineData := None |}] |};
                         groundingMetadata := None |}] |} in
  let st := chat (System.ui (System.step System.start (System.ChatType "remove the crane"))) in
  has_inline_image r = false
  /\ outcome (editImage "data:image/png;base64,iVBORw0KGgo=" "remove the crane")
       App.initial (ContentSettles (Resolved r)) App.initial
     = Some (App.initial, inl (Ok None))
  /\ exists u3,
       outcome (chat_handler (Send (Some "data:image/png;base64,iVBORw0KGgo=")) st)
         App.initial (ContentSettles (Resolved r)) App.initial
       = Some (u3, inl (Ok tt))
       /\ messages (chat u3)
          = messages ChatInterface.initial
            ++ [notice "I tried to edit the image but couldn't generate a result."].
Proof.
  intros r st.
  destruct (empty_answer_is_reported r eq_refl) as (Hedit & _ & Hchat & _).
  split; [reflexivity | split; [apply Hedit |]].
  destruct (Hchat (Send (Some "data:image/png;base64,iVBORw0KGgo=")) st
              App.initial App.initial _ eq_refl) as (u3 & Hx & Hmsg).
  exists u3. split; [rewrite <- Hx; reflexivity | exact Hmsg].
Defined.

(** The editor reports a failed edit in its own way: the inline error
    is set, [isGenerating] is reset, and the handler ends normally. *)
Lemma editor_failure_is_inline (imageSrc : string) (i : nat)
    (st : EditorState) (u u2 : UI) (o : Settlement) (e : Exn)
    (x : UI * (Result unit + Task UI unit)) :
  thrown o = Some e ->
  outcome (ImageEditor.handleGenerate imageSrc i st) u o u2 = Some x ->
  x = (setIsGenerating i false
         (setError i (Some "An error occurred during generation.")
            (State.console_error EmptyString e
               (State.console_error "Image edit error:" e u2))),
       inl (Ok tt)).
Proof.
  unfold outcome, ImageEditor.handleGenerate.
  destruct (JS.truthy (JS.trim (prompt st))); simpl; [| discriminate].
  intros Hthrown. settle_cases o; try discriminate.
  injection Hthrown as ->. intros [= <-]. reflexivity.
Qed.

End ChatFacts.

Module SystemFacts.

Import Types State Sdk Async Service Spec ChatInterface System.
Import ChatFacts.

(** *** Rendering keeps the transcript and generates no image *)

Lemma reconcile_chat (u : UI) : chat (reconcile u) = chat u.
Proof.
  unfold reconcile.
  destruct (isEditing u && JS.truthy_opt (capturedImage u));
    [destruct (editor u) |]; reflexivity.
Qed.

Lemma reconcile_generated (u : UI) (i : nat) (g : string) :
  generated (reconcile u) i g -> generated u i g.
Proof.
  unfold reconcile, generated.
  destruct (isEditing u && JS.truthy_opt (capturedImage u));
    [destruct (editor u) as [m0|] eqn:E |]; simpl; intros (m & Hm & Hi & Hg).
  - exists m. rewrite <- E. auto.
  - injection Hm as <-. discriminate.
  - discriminate.
Qed.

(** *** The setters *)

Lemma with_editor_generated (j : nat) (f : EditorState -> EditorState)
    (u : UI) (i : nat) (g : string) :
  (forall e, generatedImage (f e) = generatedImage e) ->
  generated (with_editor j f u) i g -> generated u i g.
Proof.
  unfold generated, with_editor. simpl. intros Hf (m & Hm & Hi & Hg).
  destruct (editor u) as [m0|]; [| discriminate].
  exists m0. split; [reflexivity |].
  destruct (Nat.eqb (instance m0) j) eqn:E; injection Hm as <-;
    simpl in Hg, Hi; [rewrite Hf in Hg; apply Nat.eqb_eq in E; subst j |]; auto.
Qed.

Lemma setGeneratedImage_generated (j : nat) (v : option string) (u : UI)
    (i : nat) (g : string) :
  generated (setGeneratedImage j v u) i g ->
  generated u i g \/ (j = i /\ v = Some g).
Proof.
  unfold generated, setGeneratedImage, with_editor. simpl.
  intros (m & Hm & Hi & Hg).
  destruct (editor u) as [m0|]; [| discriminate].
  destruct (Nat.eqb (instance m0) j); injection Hm as <-; simpl in Hg, Hi.
  - right. auto.
  - left. exists m0. auto.
Qed.

Lemma same_editor_generated (u u' : UI) (i : nat) (g : string) :
  editor u' = editor u -> generated u' i g -> generated u i g.
Proof. unfold generated. intros ->. auto. Qed.

Lemma appended_nil {A} (l : list A) : l = l ++ [].
Proof. symmetry. apply app_nil_r. Qed.

(** Closes the goals on the transcript and on the images of a handler
    whose run has been computed. *)
Ltac transcript_grows :=
  simpl; first [ apply appended_nil | reflexivity ].

Ltac editor_kept :=
  intros ?i ?g ?Hg;
  first [ exact Hg
        | left; exact Hg
        | apply (same_editor_generated _ _ _ _ eq_refl) in Hg; exact Hg
        | left; apply (same_editor_generated _ _ _ _ eq_refl) in Hg; exact Hg ].

(** *** The handlers of the chat panel *)

(** The rest of a handler ends well, by running it. *)
Ltac runs_to_end :=
  eexists; eexists; split; [reflexivity |];
  (split; [transcript_grows | editor_kept]).

Ltac resumes_well o :=
  intros o ?q; settle_cases o; try discriminate;
  intros [= <-] ?u2; image_cases; runs_to_end.

Lemma handleSend_starts_well (initialImage : option string) (st : ChatState) :
  starts_well (handleSend initialImage App.onClearImage st).
Proof.
  intros u. which_send initialImage st.
  all: eexists; eexists; split;
    [ first [ left; reflexivity
            | right; eexists; split; [reflexivity | resumes_well o] ]
    | split; [transcript_grows | editor_kept] ].
Qed.

Lemma handleGenImage_starts_well (st : ChatState) :
  starts_well (handleGenImage st).
Proof.
  intros u. unfold handleGenImage. simpl.
  eexists; eexists; split;
    [ right; eexists; split; [reflexivity | resumes_well o]
    | split; [transcript_grows | editor_kept] ].
Qed.

(** *** The handlers of the editor and of [App] *)

Lemma handleGenerate_starts_well (imageSrc : string) (j : nat)
    (st : EditorState) :
  starts_well (ImageEditor.handleGenerate imageSrc j st).
Proof.
  intros u.
  destruct (run (ImageEditor.handleGenerate imageSrc j st) u) as [u1 res] eqn:Hrun.
  assert (Hfrom : forall t, res = inr t -> from_editor j t).
  { intros t ->. exists imageSrc, st, u, u1. exact Hrun. }
  revert Hrun Hfrom. unfold ImageEditor.handleGenerate.
  destruct (JS.truthy (JS.trim (prompt st))); simpl; intros [= <- <-] Hfrom.
  - eexists; eexists; split; [right; eexists; split; [reflexivity |] |].
    + specialize (Hfrom _ eq_refl).
      intros o q. settle_cases o; try discriminate; intros [= <-] u2.
      * destruct (first_image (response_parts r)) as [g|] eqn:Hg; simpl;
          [destruct (JS.truthy g); simpl |].
        all: eexists; eexists; split; [reflexivity |];
          (split; [transcript_grows |]).
        all: intros i g' Hg'.
        all: repeat first
          [ apply with_editor_generated in Hg'; [| reflexivity]
          | apply setGeneratedImage_generated in Hg' as [Hg' | [<- Hg']] ].
        all: try (left; exact Hg').
        right. split; [exact Hfrom |]. exists r. injection Hg' as <-. auto.
      * eexists; eexists; split; [reflexivity |];
          (split; [transcript_grows |]).
        intros i g' Hg'.
        repeat (apply with_editor_generated in Hg'; [| reflexivity]).
        left. exact Hg'.
    + split; [transcript_grows |].
      intros i g' Hg'.
      repeat (apply with_editor_generated in Hg'; [| reflexivity]).
      exact Hg'.
  - eexists; eexists; split; [left; reflexivity |].
    split; [transcript_grows | editor_kept].
Qed.

(** A handler that is one update of the state. *)
Lemma eff_starts_well (f : UI -> UI) :
  (forall u, exists added, messages (chat (f u)) = messages (chat u) ++ added) ->
  (forall u i g, generated (f u) i g -> generated u i g) ->
  starts_well (eff f).
Proof.
  intros Hm Hg u. destruct (Hm u) as [added Ha].
  exists (f u), added. split; [left; reflexivity |]. split; [exact Ha |].
  intros i g. apply Hg.
Qed.

Lemma handleSave_starts_well (st : EditorState) :
  starts_well (ImageEditor.handleSave App.handleEditorSave st).
Proof.
  intros u. unfold ImageEditor.handleSave.
  destruct (JS.truthy_opt (generatedImage st)); simpl;
    eexists; eexists; (split; [left; reflexivity |]);
    (split; [transcript_grows | editor_kept]).
Qed.

(** Every handler the JSX attaches starts well. *)
Lemma handler_starts_well (u : UI) (ev : Event) (p : Prog unit) :
  handler u ev = Some p -> starts_well p.
Proof.
  destruct ev; simpl; unfold on_editor;
    repeat match goal with
           | |- context [if ?b then _ else _] => destruct b
           | |- context [match editor u with _ => _ end] => destruct (editor u)
           end;
    try discriminate; intros [= <-].
  all: try apply handleSend_starts_well.
  all: try apply handleGenImage_starts_well.
  all: try apply handleGenerate_starts_well.
  all: try apply handleSave_starts_well.
  all: try (apply eff_starts_well;
            [ intros ?; eexists; transcript_grows
            | intros ? ? ? Hg;
              first [ exact Hg
                    | apply with_editor_generated in Hg; [exact Hg | reflexivity]
                    | apply setGeneratedImage_generated in Hg as [Hg | [_ Hg]];
                      [exact Hg | discriminate] ] ]).
  all: unfold App.handleEditClick;
    destruct (JS.truthy_opt (capturedImage u));
    apply eff_starts_well;
    [ intros ?; eexists; transcript_grows | intros ? ? ? Hg; exact Hg
    | intros ?; eexists; transcript_grows | intros ? ? ? Hg; exact Hg ].
Qed.

(** *** One event *)

Lemma without_Forall {A} (P : A -> Prop) (n : nat) (l : list A) :
  Forall P l -> Forall P (without n l).
Proof.
  unfold without. revert l.
  induction n as [|n IH]; intros [|a l] H; simpl; auto.
  - inversion H; assumption.
  - inversion H; subst. constructor; [assumption |]. apply IH. assumption.
Qed.

Lemma launch_start (u : UI) (w : list Task) (p : Prog unit) :
  starts_well p -> Forall good_task w ->
  sound (launch u w [] p)
  /\ (exists added, transcript (launch u w [] p) = messages (chat u) ++ added)
  /\ (forall i g, generated (ui (launch u w [] p)) i g -> generated u i g).
Proof.
  intros Hp Hw. destruct (Hp u) as (u' & added & Hrun & Hmsg & Hgen).
  unfold launch, sound, transcript.
  destruct Hrun as [-> | (t & -> & Ht)]; simpl;
    rewrite reconcile_chat;
    (split; [split; [| reflexivity] | split; [eauto |]]).
  - assumption.
  - intros i g Hg. apply Hgen, reconcile_generated, Hg.
  - apply Forall_app. split; [assumption | constructor; [assumption | constructor]].
  - intros i g Hg. apply Hgen, reconcile_generated, Hg.
Qed.

Lemma launch_rest (u : UI) (w : list Task) (t : Task) (o : Settlement)
    (q : Prog unit) :
  ends_well t o q -> Forall good_task w ->
  sound (launch u w [] q)
  /\ (exists added, transcript (launch u w [] q) = messages (chat u) ++ added)
  /\ (forall i g, generated (ui (launch u w [] q)) i g ->
        generated u i g \/ (from_editor i t /\ yields o g)).
Proof.
  intros Hq Hw. destruct (Hq u) as (u' & added & Hrun & Hmsg & Hgen).
  unfold launch, sound, transcript. rewrite Hrun. simpl.
  rewrite reconcile_chat.
  split; [split; [assumption | reflexivity] | split; [eauto |]].
  intros i g Hg. apply Hgen, reconcile_generated, Hg.
Qed.

(** One event keeps the invariant, only appends to the transcript, and
    shows no generated image but one that was shown already or that the
    answer settled by the event yields. *)
Lemma step_sound (s : Sys) (ev : Event) :
  sound s ->
  sound (step s ev)
  /\ (exists added, transcript (step s ev) = transcript s ++ added)
  /\ (forall i g, generated (ui (step s ev)) i g ->
        generated (ui s) i g \/ answered s ev i g).
Proof.
  intros [Hw Hu].
  assert (Hstay : sound s
                  /\ (exists added, transcript s = transcript s ++ added)
                  /\ (forall i g, generated (ui s) i g ->
                        generated (ui s) i g \/ answered s ev i g)).
  { split; [split; assumption |]. split; [exists []; apply appended_nil | auto]. }
  assert (Hui : forall p, handler (ui s) ev = Some p ->
            sound (launch (ui s) (pending s) (unhandled s) p)
            /\ (exists added, transcript (launch (ui s) (pending s) (unhandled s) p)
                              = transcript s ++ added)
            /\ (forall i g, generated (ui (launch (ui s) (pending s) (unhandled s) p)) i g ->
                  generated (ui s) i g \/ answered s ev i g)).
  { intros p Hp. rewrite Hu.
    destruct (launch_start (ui s) (pending s) p
                (handler_starts_well _ _ _ Hp) Hw) as (H1 & H2 & H3).
    auto. }
  assert (Hev : (exists n o, ev = Settle n o)
                \/ step s ev = match handler (ui s) ev with
                               | Some p => launch (ui s) (pending s) (unhandled s) p
                               | None => s
                               end).
  { destruct ev; eauto. }
  destruct Hev as [(n & o & Hev) | Hev].
  2: { rewrite Hev. destruct (handler (ui s) ev) as [p|];
         [apply Hui; reflexivity | exact Hstay]. }
  rewrite Hev in Hstay |- *. simpl.
  destruct (nth_error (pending s) n) as [t|] eqn:Ht; [| exact Hstay].
  destruct (resume t o) as [q|] eqn:Hq; [| exact Hstay].
  rewrite Hu.
  assert (Hgood : good_task t).
  { rewrite Forall_forall in Hw. apply Hw. eapply nth_error_In. exact Ht. }
  destruct (launch_rest (ui s) (without n (pending s)) t o q (Hgood o q Hq)
              (without_Forall _ _ _ Hw)) as (H1 & H2 & H3).
  split; [exact H1 | split; [exact H2 |]].
  intros i g Hg. destruct (H3 i g Hg) as [H | [Hf Hy]]; [left; exact H |].
  right. exists n, o, t. auto.
Qed.

(** *** Runs *)

Lemma run_events_app (s : Sys) (evs more : list Event) :
  run_events s (evs ++ more) = run_events (run_events s evs) more.
Proof. apply fold_left_app. Qed.

Lemma start_sound : sound start.
Proof. split; [constructor | reflexivity]. Qed.

Lemma run_sound (more : list Event) :
  forall s, sound s ->
    sound (run_events s more)
    /\ exists added, transcript (run_events s more) = transcript s ++ added.
Proof.
  induction more as [|ev more IH]; intros s Hs; simpl.
  - split; [exact Hs | exists []; apply appended_nil].
  - destruct (step_sound s ev Hs) as (Hs' & [a1 H1] & _).
    destruct (IH _ Hs') as (Hs'' & [a2 H2]).
    split; [exact Hs'' |].
    exists (a1 ++ a2). rewrite H2, H1. symmetry. apply app_assoc.
Qed.

(** No handler ever lets an exception escape: in every state the
    application reaches, nothing was thrown out of a handler and every
    waiting handler is a good task. *)
Lemma reachable_sound (evs : list Event) : sound (run_events start evs).
Proof. apply run_sound, start_sound. Qed.

(** An image the editor shows was yielded by an answer to an edit of
    that mounting, earlier in the run. *)
Lemma generated_after_success (evs : list Event) :
  forall i g,
    generated (ui (run_events start evs)) i g -> successful_edit evs i g.
Proof.
  induction evs as [|ev evs IH] using rev_ind; intros i g Hg.
  - destruct Hg as (m & Hm & _). discriminate.
  - rewrite run_events_app in Hg. simpl in Hg.
    destruct (step_sound _ ev (reachable_sound evs)) as (_ & _ & Hgen).
    destruct (Hgen i g Hg) as [Hold | Hnew].
    + destruct (IH i g Hold) as (evs1 & ev' & evs2 & -> & Hans).
      exists evs1, ev', (evs2 ++ [ev]). split; [| exact Hans].
      rewrite <- app_assoc. reflexivity.
    + exists evs, ev, []. auto.
Qed.

Lemma bubbles_from_app (l added : list Message) :
  forall n,
    bubbles_from n (l ++ added)
    = bubbles_from n l ++ bubbles_from (n + length l) added.
Proof.
  induction l as [|m l IH]; intros n; simpl.
  - rewrite Nat.add_0_r. reflexivity.
  - rewrite IH. rewrite <- plus_n_Sm. reflexivity.
Qed.

Lemma bubbles_from_messages (l : list Message) :
  forall n, map snd (bubbles_from n l) = l
            /\ map fst (bubbles_from n l) = seq n (length l).
Proof.
  induction l as [|m l IH]; intros n; simpl; [auto |].
  destruct (IH (S n)) as [-> ->]. auto.
Qed.

(** C5: in every state the application reaches, whatever happens next
    only appends messages of role 'user' or 'model' at the end of the
    transcript: the earlier messages stay as they are and where they
    are, and the chat area shows the messages in the order they were
    inserted, each under its index. *)
Theorem transcript_is_append_only (evs more : list Event) :
  exists added,
    transcript (run_events start (evs ++ more))
      = transcript (run_events start evs) ++ added
    /\ Forall (fun m => role m = user \/ role m = Types.model) added
    /\ bubbles (chat (ui (run_events start (evs ++ more))))
       = bubbles (chat (ui (run_events start evs)))
         ++ bubbles_from (length (transcript (run_events start evs))) added
    /\ map snd (bubbles (chat (ui (run_events start (evs ++ more)))))
       = transcript (run_events start (evs ++ more))
    /\ map fst (bubbles (chat (ui (run_events start (evs ++ more)))))
       = seq 0 (length (transcript (run_events start (evs ++ more)))).
Proof.
  rewrite run_events_app.
  destruct (run_sound more _ (reachable_sound evs)) as (_ & added & Hadd).
  exists added. split; [exact Hadd |]. split.
  - apply Forall_forall. intros m _. destruct (role m); auto.
  - unfold bubbles. fold (transcript (run_events (run_events start evs) more)).
    fold (transcript (run_events start evs)).
    rewrite Hadd. split; [apply bubbles_from_app |].
    apply bubbles_from_messages.
Qed.

(** *** The editor *)

(** What the service functions return as an image is never empty. *)
Lemma first_image_truthy (ps : list Part) (g : string) :
  first_image ps = Some g -> JS.truthy g = true.
Proof.
  induction ps as [|part rest IH]; simpl; [discriminate |].
  destruct (inlineData part); [intros [= <-]; reflexivity | exact IH].
Qed.

(** C10: in every state the application reaches with the editor open,
    Save either does nothing or hands to [onSave] the image the editor
    shows, which an answer to an edit of this mounting of the editor
    yielded earlier in the run; an edit sends the generated image the
    editor holds, or the original [imageSrc] when it holds none, and a
    successful edit stores its image as the generated one; closing the
    editor, and Save while no generated image is held, leave the
    captured image of the application as it is. *)
Theorem editor_saves_generated_image (evs : list Event) (m : Mounted) :
  editor (ui (run_events start evs)) = Some m ->
  (step (run_events start evs) EditorClickSave = run_events start evs
   \/ exists g,
        successful_edit evs (instance m) g
        /\ generatedImage (cells m) = Some g
        /\ editor_handleSave m = App.handleEditorSave g
        /\ capturedImage (ui (step (run_events start evs) EditorClickSave)) = Some g)
  /\ (forall imageSrc i st,
        first_call (ImageEditor.handleGenerate imageSrc i st)
        = if JS.truthy (JS.trim (prompt st))
          then first_call (editImage (ImageEditor.activeImage imageSrc st) (prompt st))
          else None)
  /\ (forall imageSrc i st u r g u2 x,
        first_image (response_parts r) = Some g ->
        outcome (ImageEditor.handleGenerate imageSrc i st) u
          (ContentSettles (Resolved r)) u2 = Some x ->
        x = (setIsGenerating i false
               (setPrompt i EmptyString (setGeneratedImage i (Some g) u2)),
             inl (Ok tt)))
  /\ capturedImage (ui (step (run_events start evs) EditorClose))
     = capturedImage (ui (run_events start evs))
  /\ (generatedImage (cells m) = None ->
      step (run_events start evs) EditorClickSave = run_events start evs).
Proof.
  intros Hm. set (s := run_events start evs) in *.
  repeat split.
  - destruct (generatedImage (cells m)) as [g|] eqn:Hg;
      [destruct (JS.truthy g) eqn:Ht |].
    + right. exists g. split; [| split; [reflexivity | split]].
      * apply generated_after_success. exists m. auto.
      * unfold editor_handleSave, ImageEditor.handleSave.
        rewrite Hg. simpl. rewrite Ht. reflexivity.
      * unfold step, handler, on_editor. rewrite Hm, Hg. simpl. rewrite Ht. simpl.
        unfold launch, editor_handleSave, ImageEditor.handleSave.
        rewrite Hg. simpl. rewrite Ht. reflexivity.
    + left. unfold step, handler, on_editor. rewrite Hm, Hg. simpl.
      rewrite Ht. reflexivity.
    + left. unfold step, handler, on_editor. rewrite Hm, Hg. reflexivity.
  - intros imageSrc i st. unfold ImageEditor.handleGenerate.
    destruct (JS.truthy (JS.trim (prompt st))); reflexivity.
  - intros imageSrc i st u r g u2 x Hg.
    unfold outcome, ImageEditor.handleGenerate.
    destruct (JS.truthy (JS.trim (prompt st))); simpl; [| discriminate].
    rewrite Hg. simpl. rewrite (first_image_truthy _ _ Hg). simpl.
    intros [= <-]. reflexivity.
  - unfold step, handler, on_editor. rewrite Hm. unfold launch. reflexivity.
  - intros Hg. unfold step, handler, on_editor. rewrite Hm, Hg. reflexivity.
Qed.

Lemma editor_saves_generated_image_witness :
  editor (ui (run_events start edit_session)) = Some night_editor
  /\ capturedImage (ui (step (run_events start edit_session) EditorClose))
     = Some sample_image
  /\ (step (run_events start edit_session) EditorClickSave
      = run_events start edit_session
      \/ exists g,
           successful_edit edit_session 1 g
           /\ generatedImage (cells night_editor) = Some g
           /\ editor_handleSave night_editor = App.handleEditorSave g
           /\ capturedImage (ui (step (run_events start edit_session) EditorClickSave))
              = Some g).
Proof.
  destruct (editor_saves_generated_image edit_session night_editor eq_refl)
    as (Hsave & _ & _ & Hclose & _).
  split; [reflexivity | split; [exact Hclose | exact Hsave]].
Defined.

(** *** One call at a time *)

(** While [isLoading], the Send button starts nothing: it is
    [disabled]. *)
Lemma send_button_is_gated (s : Sys) :
  isLoading (chat (ui s)) = true -> step s ClickSend = s.
Proof. intros H. unfold step, handler. rewrite H. reflexivity. Qed.

(** The end of every call of the chat panel, by an answer or by a
    failure, leaves [isLoading] false. *)
Lemma loading_ends_with_call (a : ChatAction) (st : ChatState) (u u2 : UI)
    (o : Settlement) (x : UI * (Result unit + Task)) :
  outcome (chat_handler a st) u o u2 = Some x ->
  exists u3, x = (u3, inl (Ok tt)) /\ isLoading (chat u3) = false.
Proof.
  destruct a as [initialImage |]; cbn [chat_handler].
  - which_send initialImage st; settle_cases o; try discriminate;
      image_cases; intros [= <-]; eexists; split; reflexivity.
  - unfold outcome, handleGenImage; simpl.
    settle_cases o; try discriminate;
      image_cases; intros [= <-]; eexists; split; reflexivity.
Qed.

(** C2, the code at the failing input: Enter in the chat input runs
    [handleSend] whatever [isLoading] is, and so does Generate in the
    generation dialog run [handleGenImage].  With an image attached and
    the request of a first edit outstanding ([isLoading] is true), a
    second Enter issues the request of a second edit, and Generate
    issues the request of a generation: two calls of the service are
    outstanding; and the answer to the first puts [isLoading] back to
    false while the second is still outstanding. *)
Theorem second_call_starts_while_loading :
  isLoading (chat (ui (run_events start (firstn 3 enter_while_loading)))) = true
  /\ length (pending (run_events start (firstn 3 enter_while_loading))) = 1
  /\ length (pending (run_events start enter_while_loading)) = 2
  /\ length (pending (run_events start generate_while_loading)) = 2
  /\ map request_of (pending (run_events start enter_while_loading))
     = [Notions.edit_request sample_image "Add a tower";
        Notions.edit_request sample_image "Change the facade"]
  /\ map request_of (pending (run_events start generate_while_loading))
     = [Notions.edit_request sample_image "Add a tower";
        ContentCall
          {| model := "gemini-3-pro-image-preview";
             contents := [TextPart "A glass pavilion"];
             imageConfig := Some {| imageSize := "1K";
                                    Sdk.aspectRatio := "1:1" |} |}]
  /\ (let s := step (run_events start enter_while_loading)
                 (Settle 0 (ContentSettles (Resolved night_answer))) in
      isLoading (chat (ui s)) = false /\ length (pending s) = 1).
Proof. repeat split. Qed.

(** *** The attached image *)

(** Once the call of a send with an attached image has ended, by an
    answer, by an answer without an image or by a failure, no image is
    attached. *)
Lemma attached_image_is_cleared (initialImage : option string)
    (st : ChatState) (u u2 : UI) (o : Settlement)
    (x : UI * (Result unit + Task)) :
  JS.truthy_opt initialImage = true ->
  outcome (handleSend initialImage App.onClearImage st) u o u2 = Some x ->
  exists u3, x = (u3, inl (Ok tt)) /\ capturedImage u3 = None.
Proof.
  which_send initialImage st; intros _; settle_cases o; try discriminate;
    image_cases; intros [= <-]; eexists; split; reflexivity.
Qed.

(** C9, the code at the failing input: with an image attached and the
    request of an edit of it outstanding, a second edit sent with Enter
    before the answer sends the same image again: the image is cleared
    only after a call has ended, so two user messages show it and the
    two outstanding requests are edits that both carry it. *)
Theorem attached_image_is_sent_twice :
  map Types.image
    (filter (fun m => match role m with user => true | Types.model => false end)
       (transcript (run_events start enter_twice_with_image)))
  = [Some sample_image; Some sample_image]
  /\ map carries_image (pending (run_events start enter_twice_with_image))
     = [true; true]
  /\ capturedImage (ui (run_events start enter_twice_with_image))
     = Some sample_image
  /\ map request_of (pending (run_events start enter_twice_with_image))
     = [Notions.edit_request sample_image "add a tower";
        Notions.edit_request sample_image "remove the crane"].
Proof. repeat split. Qed.

End SystemFacts.

Module CubeFacts.

Import ThreeDViewer.

Section Canvas.

Variable num : Type.
Variables add sub mul div : num -> num -> num.
Variable neg : num -> num.
Variables cos sin : num -> num.
Variable PI : num.
Variable ofZ : Z -> num.
Variable dec : Z -> nat -> num.

Local Abbreviation drawCube := (drawCube num add sub mul div cos sin ofZ).
Local Abbreviation vertices := (vertices num add sub mul div cos sin ofZ).
Local Abbreviation placed := (placed num add sub mul div cos sin ofZ).
Local Abbreviation render := (render num add sub mul div neg cos sin PI ofZ dec).
Local Abbreviation exec_all := (exec_all num add ofZ).
Local Abbreviation wireframe := (wireframe num add sub mul div cos sin ofZ).

(** The function mapped over the vertices is the placement of the
    specification. *)
Lemma project_is_placed (size rotX rotY : num) (v : Z * Z * Z) :
  project num add sub mul div cos sin ofZ size rotX rotY v = placed size rotX rotY v.
Proof. destruct v as [[v0 v1] v2]. reflexivity. Qed.

Lemma cube_corners (vx vy vz : Z) :
  (vx = -1 \/ vx = 1)%Z -> (vy = -1 \/ vy = 1)%Z -> (vz = -1 \/ vz = 1)%Z ->
  exists n, nth_error cube n = Some (vx, vy, vz).
Proof.
  intros [-> | ->] [-> | ->] [-> | ->];
    [exists 0 | exists 4 | exists 3 | exists 7
    | exists 1 | exists 5 | exists 2 | exists 6]; reflexivity.
Qed.

(** C6: for every call of [drawCube], so for every cube of every
    frame, each vertex (vx,vy,vz) of {-1,1}^3 is placed at the offset
    (vx'*size*s, vy'*size*s) from the cube centre, with (vx',y1,z1) the
    vertex rotated about the Y axis by rotY, (vy',z2) the rotation of
    (y1,z1) about the X axis by rotX, and s = 200/(200+z2); the cube is
    stroked as its twelve edges between these points; the commands sent
    to the canvas are the same in kind for all arguments (there is no
    branch), and the drawing state of the canvas (transform, styles and
    saved states) is left as it was found, so that no cube leaves state
    behind for the next cube or the next frame.  A frame of [render] is
    five such cubes on a cleared canvas, and all it hands to the next
    frame is its counter plus one. *)
Theorem drawCube_is_closed_form (x y size : num) (color : string)
    (rotX rotY : num) (c : Context num) (vx vy vz : Z) :
  (vx = -1 \/ vx = 1)%Z -> (vy = -1 \/ vy = 1)%Z -> (vz = -1 \/ vz = 1)%Z ->
  (exists n,
      nth_error cube n = Some (vx, vy, vz)
      /\ nth_error (vertices size rotX rotY) n
         = Some (placed size rotX rotY (vx, vy, vz)))
  /\ strokes num (exec_all c (drawCube x y size color rotX rotY))
     = strokes num c
       ++ [{| ink := color; pen_width := ofZ 2;
              segments := wireframe c x y size rotX rotY |}]
  /\ map (kind num) (drawCube x y size color rotX rotY) = skeleton
  /\ current num (exec_all c (drawCube x y size color rotX rotY)) = current num c
  /\ saved num (exec_all c (drawCube x y size color rotX rotY)) = saved num c
  /\ (forall t w h,
        exists cmds,
          render t (Some (w, h)) = Some (cmds, add t (ofZ 1))
          /\ map (kind num) cmds = frame_skeleton).
Proof.
  intros Hx Hy Hz. split; [| repeat split].
  - destruct (cube_corners vx vy vz Hx Hy Hz) as [n Hn].
    exists n. split; [exact Hn |].
    unfold ThreeDViewer.vertices. rewrite nth_error_map, Hn. simpl.
    f_equal.
  - intros t w h. eexists. split; reflexivity.
Qed.

End Canvas.

(** The hypotheses of C6 at the corner (1,-1,1), in a reading of the
    numbers as integers with every angle taken as zero. *)
Lemma drawCube_is_closed_form_witness :
  let cos0 := fun _ : Z => 1%Z in
  let sin0 := fun _ : Z => 0%Z in
  (1 = -1 \/ 1 = 1)%Z /\ (-1 = -1 \/ -1 = 1)%Z
  /\ exists n,
       nth_error cube n = Some (1, -1, 1)%Z
       /\ nth_error (vertices Z Z.add Z.sub Z.mul Z.div cos0 sin0 (fun z => z)
                       30%Z 0%Z 0%Z) n
          = Some (placed Z Z.add Z.sub Z.mul Z.div cos0 sin0 (fun z => z)
                    30%Z 0%Z 0%Z (1, -1, 1)%Z).
Proof.
  intros cos0 sin0.
  split; [right; reflexivity | split; [left; reflexivity |]].
  apply (drawCube_is_closed_form Z Z.add Z.sub Z.mul Z.div Z.opp cos0 sin0 3%Z
           (fun z => z) (fun m _ => m) 0%Z 0%Z 30%Z "#4285F4" 0%Z 0%Z
           {| current := default_state Z (fun z => z); saved := []; path := [];
              pen := None; strokes := [] |}
           1%Z (-1)%Z 1%Z);
    [right | left | right]; reflexivity.
Defined.

End CubeFacts.

(** * Further properties *)

Module ServiceMore.

Import Sdk Async Service State Spec Notions.

Lemma append_nil_r (s : string) : (s ++ EmptyString)%string = s.
Proof. induction s as [|c s IH]; simpl; [| rewrite IH]; reflexivity. Qed.

Lemma append_assoc (a b c : string) :
  ((a ++ b) ++ c)%string = (a ++ b ++ c)%string.
Proof. induction a as [|x a IH]; simpl; [| rewrite IH]; reflexivity. Qed.

Lemma chunk_string_falsy (c : Chunk) :
  JS.truthy_opt (chunk_text c) = false -> chunk_string c = EmptyString.
Proof.
  unfold chunk_string, JS.or_else, JS.truthy_opt.
  destruct (chunk_text c) as [s|]; [intros -> |]; reflexivity.
Qed.

(** *** Sequences of updates *)

Lemma bind_effs {A B} (fs : list (UI -> UI)) (k : Prog A) (g : A -> Prog B) :
  bind (effs fs k) g = effs fs (bind k g).
Proof. induction fs as [|f fs IH]; simpl; [| rewrite IH]; reflexivity. Qed.

Lemma try_catch_effs {A} (fs : list (UI -> UI)) (k : Prog A) (h : Exn -> Prog A) :
  try_catch (effs fs k) h = effs fs (try_catch k h).
Proof. induction fs as [|f fs IH]; simpl; [| rewrite IH]; reflexivity. Qed.

Lemma run_effs {A} (fs : list (UI -> UI)) (k : Prog A) :
  forall u, run (effs fs k) u = run k (after fs u).
Proof. induction fs as [|f fs IH]; intros u; simpl; [| rewrite IH]; reflexivity. Qed.

(** The loop over the chunks, with a callback that updates the state:
    the callback is run on what has been said so far after each chunk
    with a text, and the loop returns all the texts and the last
    grounding chunks. *)
Lemma consume_effs (f : string -> UI -> UI) (cs : list Chunk) :
  forall fullText grounding,
    consume (fun said => eff (f said)) cs fullText grounding
    = effs (map f (spoken fullText cs))
        (ret ((fullText ++ joined cs)%string, last_grounding cs grounding)).
Proof.
  induction cs as [|c cs IH]; intros fullText grounding; simpl.
  - rewrite append_nil_r. reflexivity.
  - destruct (JS.truthy_opt (chunk_text c)) eqn:Ht; simpl.
    + rewrite IH, append_assoc. reflexivity.
    + rewrite IH, (chunk_string_falsy c Ht). reflexivity.
Qed.

(** X1: when the whole stream arrives, [sendMessage] returns the texts
    of the chunks joined in order and the grounding chunks of the last
    chunk that has some (none when no chunk has), and it has called
    [onStream] once for every chunk with a text, each time with the
    whole answer so far. *)
Theorem sendMessage_collects_stream (h : list HistoryItem) (m : string)
    (i : option string) (t s : option bool) (f : string -> UI -> UI)
    (cs : list Chunk) (u u2 : UI) :
  outcome (sendMessage (options h m i t s f)) u
    (StreamSettles (Resolved {| chunks := cs; failure := None |})) u2
  = Some (after (map f (spoken EmptyString cs)) u2,
          inl (Ok {| text := joined cs;
                     groundingChunks := last_grounding cs [] |})).
Proof.
  unfold outcome, sendMessage. simpl.
  rewrite consume_effs, bind_effs, try_catch_effs, run_effs. reflexivity.
Qed.

(** X2: when the request is rejected, or the stream fails after some
    chunks, each service function writes one line to the console under
    its own label and throws the very exception it caught; the texts
    that had arrived are not returned. *)
Theorem service_logs_and_rethrows (e : Exn) (u u2 : UI) :
  (forall base64Image prompt,
      outcome (editImage base64Image prompt) u (ContentSettles (Rejected e)) u2
      = Some (State.console_error "Image edit error:" e u2, inl (Throw e)))
  /\ (forall prompt size ar,
      outcome (generateImage prompt size ar) u (ContentSettles (Rejected e)) u2
      = Some (State.console_error "Image gen error:" e u2, inl (Throw e)))
  /\ (forall h m i t s f,
      outcome (sendMessage (options h m i t s f)) u (StreamSettles (Rejected e)) u2
      = Some (State.console_error "Chat error:" e u2, inl (Throw e)))
  /\ (forall h m i t s f cs,
      outcome (sendMessage (options h m i t s f)) u
        (StreamSettles (Resolved {| chunks := cs; failure := Some e |})) u2
      = Some (State.console_error "Chat error:" e
                (after (map f (spoken EmptyString cs)) u2),
              inl (Throw e))).
Proof.
  repeat split; intros; try reflexivity.
  unfold outcome, sendMessage. simpl.
  rewrite consume_effs, bind_effs, try_catch_effs, run_effs. reflexivity.
Qed.

(** *** The data sent for an image *)

Lemma cut_no_comma (s : string) :
  no_comma s = true -> JS.cut "," s = (s, None).
Proof.
  induction s as [|c s IH]; simpl; [reflexivity |].
  destruct (Ascii.eqb c ","); simpl; [discriminate |].
  intros H. rewrite (IH H). reflexivity.
Qed.

Lemma cut_at_comma (a b : string) :
  no_comma a = true -> JS.cut "," (a ++ String "," b) = (a, Some b).
Proof.
  induction a as [|c a IH]; simpl; [reflexivity |].
  destruct (Ascii.eqb c ","); simpl; [discriminate |].
  intros H. rewrite (IH H). reflexivity.
Qed.

Lemma split_no_comma (n : nat) (s : string) :
  no_comma s = true -> JS.split_fuel n "," s = [s].
Proof.
  intros H. destruct n; simpl; [| rewrite (cut_no_comma s H)]; reflexivity.
Qed.

Lemma length_with_comma (a b : string) :
  String.length (a ++ String "," b) = S (String.length a + String.length b).
Proof.
  induction a as [|c a IH]; simpl; [| rewrite IH]; reflexivity.
Qed.

Lemma no_comma_app (a b : string) :
  no_comma (a ++ b) = no_comma a && no_comma b.
Proof.
  induction a as [|c a IH]; simpl; [| rewrite IH, andb_assoc]; reflexivity.
Qed.

Lemma base64Data_after_comma (a b : string) :
  no_comma a = true -> no_comma b = true -> JS.truthy b = true ->
  base64Data (a ++ String "," b) = b.
Proof.
  intros Ha Hb Ht. unfold base64Data, JS.split.
  rewrite length_with_comma. simpl.
  rewrite (cut_at_comma a b Ha), (split_no_comma _ b Hb). simpl.
  rewrite Ht. reflexivity.
Qed.

Lemma base64Data_data_url (d : InlineData) :
  no_comma (mimeType d) = true ->
  no_comma (data d) = true ->
  JS.truthy (data d) = true ->
  base64Data (data_url d) = data d.
Proof.
  intros Hm Hd Ht. unfold data_url.
  change (("data:" ++ mimeType d ++ ";base64," ++ data d)%string)
    with (("data:" ++ (mimeType d ++ ";base64" ++ String "," (data d)))%string).
  rewrite <- (append_assoc (mimeType d) ";base64").
  rewrite <- (append_assoc "data:").
  apply base64Data_after_comma; [| exact Hd | exact Ht].
  rewrite !no_comma_app, Hm. reflexivity.
Qed.

Lemma base64Data_plain (s : string) :
  no_comma s = true -> base64Data s = s.
Proof.
  intros Hs. unfold base64Data, JS.split.
  rewrite (split_no_comma _ s Hs). reflexivity.
Qed.

(** X3: what the service functions return as an image comes back
    whole when it is sent again: of the data URL built from an inline
    part whose mime type and data hold no comma, with data that is not
    empty, [base64Data] is the data of that part; and a text without a
    comma, such as bare base64, is sent as it is. *)
Theorem base64Data_of_returned_image (d : InlineData) (s : string) :
  no_comma (mimeType d) = true ->
  no_comma (data d) = true ->
  JS.truthy (data d) = true ->
  no_comma s = true ->
  base64Data (data_url d) = data d /\ base64Data s = s.
Proof.
  intros Hm Hd Ht Hs. split.
  - apply base64Data_data_url; assumption.
  - apply base64Data_plain, Hs.
Qed.

Lemma base64Data_of_returned_image_witness :
  let d := {| mimeType := "image/jpeg"; data := "Tm9jdHVybmU=" |} in
  no_comma (mimeType d) = true /\ no_comma (data d) = true
  /\ JS.truthy (data d) = true /\ no_comma "iVBORw0KGgo=" = true
  /\ base64Data (data_url d) = "Tm9jdHVybmU="
  /\ base64Data "iVBORw0KGgo=" = "iVBORw0KGgo=".
Proof.
  intros d. repeat (split; [reflexivity |]).
  apply (base64Data_of_returned_image d "iVBORw0KGgo="); reflexivity.
Defined.


End ServiceMore.

Module ChatMore.

Import Types State Sdk Async Service Spec Notions ChatInterface.
Import ChatFacts.

(** *** The edit heuristic *)

Lemma toLowerCase_app (a b : string) :
  JS.toLowerCase (a ++ b) = (JS.toLowerCase a ++ JS.toLowerCase b)%string.
Proof. induction a as [|c a IH]; simpl; [| rewrite IH]; reflexivity. Qed.

Lemma prefix_app (sub rest : string) : String.prefix sub (sub ++ rest) = true.
Proof.
  induction sub as [|c sub IH]; simpl; [destruct rest; reflexivity |].
  destruct (ascii_dec c c) as [_ | Hne]; [exact IH | contradiction].
Qed.

Lemma includes_prefix (s sub : string) :
  String.prefix sub s = true -> JS.includes s sub = true.
Proof. destruct s; simpl; intros ->; reflexivity. Qed.

Lemma includes_middle (a sub b : string) :
  JS.includes (a ++ sub ++ b) sub = true.
Proof.
  induction a as [|c a IH].
  - change (JS.includes (sub ++ b) sub = true).
    apply includes_prefix, prefix_app.
  - change (JS.includes (String c (a ++ sub ++ b)) sub = true).
    simpl. rewrite IH. apply orb_true_r.
Qed.

(** X5: the edit heuristic finds its words in any letter case and
    anywhere in the text: a text that holds 'add', 'remove', 'change' or
    'filter', written in upper or lower case letters, between any other
    characters, counts as a request for an edit, so with an image
    attached it goes to [editImage]. *)
Theorem edit_word_anywhere (before word behind : string)
    (initialImage : option string) (st : ChatState) :
  In (JS.toLowerCase word) edit_words ->
  input st = (before ++ word ++ behind)%string ->
  JS.truthy_opt initialImage = true ->
  asks_for_edit (before ++ word ++ behind) = true
  /\ isEditRequest initialImage st = true
  /\ first_call (handleSend initialImage App.onClearImage st)
     = first_call (editImage (narrowed initialImage)
                     (JS.or_else (Some (input st)) "Make requested edits")).
Proof.
  intros Hw Hin Himg.
  assert (Hask : asks_for_edit (before ++ word ++ behind) = true).
  { unfold asks_for_edit. rewrite !toLowerCase_app.
    simpl in Hw. destruct Hw as [<- | [<- | [<- | [<- | []]]]];
      rewrite includes_middle; repeat rewrite orb_true_r; reflexivity. }
  assert (Hedit : isEditRequest initialImage st = true).
  { unfold isEditRequest. rewrite Himg, Hin. exact Hask. }
  split; [exact Hask | split; [exact Hedit |]].
  unfold handleSend. rewrite Himg, Hedit.
  rewrite andb_false_r. reflexivity.
Qed.

Lemma edit_word_anywhere_witness :
  let st := chat (System.ui (System.step System.start
                    (System.ChatType "Could you REMOVE the crane, please?"))) in
  In (JS.toLowerCase "REMOVE") edit_words
  /\ isEditRequest (Some sample_image) st = true.
Proof.
  intros st. split; [right; left; reflexivity |].
  apply (edit_word_anywhere "Could you " "REMOVE" " the crane, please?"
           (Some sample_image) st);
    [right; left; reflexivity | reflexivity | reflexivity].
Defined.

(** *** What a send passes on *)

Lemma or_else_said (m : Message) :
  JS.or_else (Types.text m) EmptyString = said m.
Proof.
  unfold JS.or_else, said. destruct (Types.text m) as [t|]; [|reflexivity].
  destruct t; reflexivity.
Qed.

(** X6: the history a send passes to the chat capability is the
    transcript as it was before the send, one item per message, in
    order, with the role of the message, and each item holds the text
    of its message (the empty text for a message without one) and
    nothing else: images of earlier messages are never sent again.
    Only the image attached to this send goes with the request. *)
Theorem history_is_text_only (initialImage : option string) (st : ChatState)
    (req : ChatRequest) :
  first_call (handleSend initialImage App.onClearImage st) = Some (StreamCall req) ->
  map h_role (chat_history req) = map role (messages st)
  /\ forallb text_only (chat_history req) = true
  /\ chat_parts req
     = userParts (JS.or_else (Some (input st)) "Analyze this image")
         (JS.or_undefined initialImage)
  /\ map h_parts (chat_history req)
     = map (fun m => [TextPart (said m)]) (messages st).
Proof.
  which_send initialImage st; try discriminate; intros [= <-]; simpl.
  all: rewrite !map_map; simpl; repeat split.
  all: induction (messages st) as [|m ms IH]; simpl; auto.
  all: rewrite or_else_said; f_equal; exact IH.
Qed.

Lemma history_is_text_only_witness :
  let st := chat (System.ui (System.run_events System.start
                    [System.FileLoaded sample_image;
                     System.ChatType "add a tower"; System.ChatEnter;
                     System.Settle 0 (ContentSettles (Resolved night_answer));
                     System.ChatType "How tall is the tower?"])) in
  exists req,
    first_call (handleSend None App.onClearImage st) = Some (StreamCall req)
    /\ map Types.image (messages st)
       = [None; Some sample_image; Some "data:image/png;base64,Tm9jdHVybmU="]
    /\ map h_parts (chat_history req)
       = map (fun m => [TextPart (said m)]) (messages st)
    /\ chat_parts req = [TextPart "How tall is the tower?"].
Proof.
  intros st. eexists. split; [reflexivity |]. split; [reflexivity |].
  destruct (history_is_text_only None st _ eq_refl) as (_ & _ & Hparts & Htexts).
  split; [exact Htexts | exact Hparts].
Defined.

(** X7: a generation leaves alone what a send uses up: from its start
    to its end, whatever the service answers, the attached image, the
    typed input, the switches and the settings of the dialog stay as
    they are; the dialog is closed at the start. *)
Theorem generation_keeps_attachment (st : ChatState) (u u2 : UI)
    (o : Settlement) (x : UI * (Result unit + Task UI unit)) :
  outcome (handleGenImage st) u o u2 = Some x ->
  (exists u1 t,
      run (handleGenImage st) u = (u1, inr t)
      /\ capturedImage u1 = capturedImage u
      /\ input (chat u1) = input (chat u)
      /\ genSettings (chat u1) = genSettings (chat u)
      /\ showGenModal (chat u1) = false)
  /\ exists u3,
       x = (u3, inl (Ok tt))
       /\ capturedImage u3 = capturedImage u2
       /\ input (chat u3) = input (chat u2)
       /\ genSettings (chat u3) = genSettings (chat u2)
       /\ State.useThinking (chat u3) = State.useThinking (chat u2)
       /\ State.useSearch (chat u3) = State.useSearch (chat u2)
       /\ editor u3 = editor u2.
Proof.
  unfold outcome, handleGenImage. simpl. intros H. split.
  - eexists; eexists; repeat split.
  - revert H. settle_cases o; try discriminate; image_cases;
      intros [= <-]; eexists; repeat split.
Qed.

Lemma generation_keeps_attachment_witness :
  exists x u3,
    outcome (handleGenImage ChatInterface.initial)
      (setCapturedImage (Some sample_image) App.initial)
      (ContentSettles (Resolved night_answer))
      (setCapturedImage (Some sample_image) App.initial) = Some x
    /\ x = (u3, inl (Ok tt))
    /\ capturedImage u3 = Some sample_image.
Proof.
  eexists.
  destruct (generation_keeps_attachment ChatInterface.initial
              (setCapturedImage (Some sample_image) App.initial)
              (setCapturedImage (Some sample_image) App.initial)
              (ContentSettles (Resolved night_answer)) _ eq_refl)
    as (_ & u3 & Hx & Hc & _).
  exists u3. split; [reflexivity | split; [exact Hx | exact Hc]].
Defined.

(** *** The reply to a chat *)

Lemma consume_quiet (cs : list Chunk) :
  forall fullText grounding,
    consume (fun _ => ret tt) cs fullText grounding
    = ret ((fullText ++ joined cs)%string, last_grounding cs grounding).
Proof.
  induction cs as [|c cs IH]; intros fullText grounding; simpl.
  - rewrite ServiceMore.append_nil_r. reflexivity.
  - destruct (JS.truthy_opt (chunk_text c)) eqn:Ht; simpl.
    + rewrite IH, ServiceMore.append_assoc. reflexivity.
    + rewrite IH, (ServiceMore.chunk_string_falsy c Ht). reflexivity.
Qed.

Lemma grounding_title_truthy (c : GroundingChunk) :
  JS.truthy (Types.title (grounding_url c)) = true.
Proof.
  unfold grounding_url. destruct (web c) as [w|]; [| reflexivity].
  simpl. destruct (Sdk.title w) as [t|]; [| reflexivity].
  simpl. destruct (JS.truthy t) eqn:E; [exact E | reflexivity].
Qed.

(** X22: the reply to a chat is the whole answer: when the stream of a
    send arrives whole, the handler appends one message of the model
    whose text is the texts of the chunks joined in order, and whose
    sources are those of the last chunk that has grounding, one source
    per grounding chunk, each with a title that is not empty ('Source'
    when the chunk has none); it ends normally with [isLoading] false. *)
Theorem chat_reply_is_whole_answer (initialImage : option string)
    (st : ChatState) (u u2 : UI) (cs : list Chunk)
    (x : UI * (Result unit + Task UI unit)) :
  outcome (handleSend initialImage App.onClearImage st) u
    (StreamSettles (Resolved {| chunks := cs; failure := None |})) u2 = Some x ->
  exists u3,
    x = (u3, inl (Ok tt))
    /\ messages (chat u3)
       = messages (chat u2)
         ++ [message_lit Types.model (Some (joined cs)) None
               (Some (map grounding_url (last_grounding cs [])))]
    /\ forallb (fun g => JS.truthy (Types.title g))
         (map grounding_url (last_grounding cs [])) = true
    /\ isLoading (chat u3) = false.
Proof.
  assert (Htitles : forallb (fun g => JS.truthy (Types.title g))
                      (map grounding_url (last_grounding cs [])) = true).
  { induction (last_grounding cs []) as [|c l IH]; simpl; [reflexivity |].
    rewrite grounding_title_truthy. exact IH. }
  which_send initialImage st; try discriminate.
  all: rewrite consume_quiet; simpl; intros [= <-];
    eexists; repeat split; exact Htitles.
Qed.

Lemma chat_reply_is_whole_answer_witness :
  let st := chat (System.ui (System.step System.start
                    (System.ChatType "How tall is this tower?"))) in
  let cs := [{| chunk_text := Some "About "; chunk_candidates := None |};
             {| chunk_text := None; chunk_candidates := None |};
             {| chunk_text := Some "324 m."; chunk_candidates := None |}] in
  exists x u3,
    outcome (handleSend None App.onClearImage st) App.initial
      (StreamSettles (Resolved {| chunks := cs; failure := None |})) App.initial
    = Some x
    /\ x = (u3, inl (Ok tt))
    /\ messages (chat u3)
       = messages (chat App.initial)
         ++ [message_lit Types.model (Some "About 324 m.") None (Some [])].
Proof.
  intros st cs. eexists.
  destruct (chat_reply_is_whole_answer None st App.initial App.initial cs _ eq_refl)
    as (u3 & Hx & Hm & _).
  exists u3. split; [reflexivity | split; [exact Hx | exact Hm]].
Defined.

End ChatMore.

Module LoadingFacts.

Import Types State Sdk Async Service Spec Notions ChatInterface System.
Import ChatFacts SystemFacts.

Ltac ends_with_loading o :=
  intros o ?q; settle_cases o; try discriminate;
  intros [= <-] ?u2; image_cases; eexists; split; reflexivity.

Lemma handleSend_starts_tidy (initialImage : option string) (st : ChatState) :
  starts_tidy (handleSend initialImage App.onClearImage st).
Proof.
  intros u. which_send initialImage st.
  all: eexists;
    first [ left; split; reflexivity
          | right; eexists; split; [reflexivity | left; ends_with_loading o] ].
Qed.

Lemma handleGenImage_starts_tidy (st : ChatState) :
  starts_tidy (handleGenImage st).
Proof.
  intros u. unfold handleGenImage. simpl.
  eexists. right. eexists. split; [reflexivity | left; ends_with_loading o].
Qed.

Lemma handleGenerate_starts_tidy (imageSrc : string) (i : nat)
    (st : EditorState) :
  starts_tidy (ImageEditor.handleGenerate imageSrc i st).
Proof.
  intros u. unfold ImageEditor.handleGenerate.
  destruct (JS.truthy (JS.trim (prompt st))); simpl.
  - eexists. right. eexists. split; [reflexivity |].
    right. split; [ends_with_loading o | reflexivity].
  - eexists. left. split; reflexivity.
Qed.

Lemma eff_starts_tidy (f : UI -> UI) :
  (forall u, isLoading (chat (f u)) = isLoading (chat u)) ->
  starts_tidy (eff f).
Proof. intros H u. exists (f u). left. split; [reflexivity | apply H]. Qed.

Lemma handler_starts_tidy (u : UI) (ev : Event) (p : Prog unit) :
  handler u ev = Some p -> starts_tidy p.
Proof.
  destruct ev; simpl; unfold on_editor;
    repeat match goal with
           | |- context [if ?b then _ else _] => destruct b
           | |- context [match editor u with _ => _ end] => destruct (editor u)
           end;
    try discriminate; intros [= <-].
  all: try apply handleSend_starts_tidy.
  all: try apply handleGenImage_starts_tidy.
  all: try apply handleGenerate_starts_tidy.
  all: try (apply eff_starts_tidy; intros ?; reflexivity).
  all: try (unfold App.handleEditClick;
            destruct (JS.truthy_opt (capturedImage u));
            apply eff_starts_tidy; intros ?; reflexivity).
  all: unfold editor_handleSave, ImageEditor.handleSave;
    destruct (JS.truthy_opt _); intros v; eexists; left; split; reflexivity.
Qed.

Lemma without_In {A} (n : nat) (l : list A) (x y : A) :
  In x l -> nth_error l n = Some y -> In x (without n l) \/ x = y.
Proof.
  unfold without. revert l.
  induction n as [|n IH]; intros [|a l]; simpl; try contradiction.
  - intros [-> | H] [= <-]; auto.
  - intros [-> | H] Hn; [left; left; reflexivity |].
    destruct (IH l H Hn) as [H' | H']; auto.
Qed.

(** One event keeps the application tidy. *)
Lemma step_tidy (s : Sys) (ev : Event) : tidy s -> tidy (step s ev).
Proof.
  intros [Hall Hsome].
  assert (Hev : (exists n o, ev = Settle n o)
                \/ step s ev = match handler (ui s) ev with
                               | Some p => launch (ui s) (pending s) (unhandled s) p
                               | None => s
                               end).
  { destruct ev; eauto. }
  destruct Hev as [(n & o & ->) | ->].
  - simpl. destruct (nth_error (pending s) n) as [t|] eqn:Ht; [| split; assumption].
    destruct (resume t o) as [q|] eqn:Hq; [| split; assumption].
    assert (Ht' : clears_loading t \/ keeps_loading t).
    { rewrite Forall_forall in Hall. apply Hall. eapply nth_error_In. exact Ht. }
    assert (Hrest : Forall (fun t => clears_loading t \/ keeps_loading t)
                      (without n (pending s))).
    { apply without_Forall. exact Hall. }
    unfold launch, tidy.
    destruct Ht' as [Hc | Hk].
    + destruct (Hc o q Hq (ui s)) as (u' & -> & Hl). simpl.
      rewrite reconcile_chat, Hl. split; [exact Hrest | discriminate].
    + destruct (Hk o q Hq (ui s)) as (u' & -> & Hl). simpl.
      rewrite reconcile_chat, Hl. split; [exact Hrest |].
      intros Hload. specialize (Hsome Hload).
      apply Exists_exists in Hsome as (t' & Hin & Hc).
      destruct (without_In n _ t' t Hin Ht) as [Hin' | ->].
      * apply Exists_exists. eauto.
      * destruct (Hc o q Hq (ui s)) as (u'' & Hrun & Hl').
        destruct (Hk o q Hq (ui s)) as (u3 & Hrun3 & Hl3).
        rewrite Hrun in Hrun3. injection Hrun3 as <-.
        congruence.
  - destruct (handler (ui s) ev) as [p|] eqn:Hp; [| split; assumption].
    destruct (handler_starts_tidy _ _ _ Hp (ui s)) as (u' & Hrun).
    unfold launch, tidy.
    destruct Hrun as [[-> Hl] | (t & -> & Ht)]; simpl; rewrite reconcile_chat.
    + rewrite Hl. split; assumption.
    + split.
      * apply Forall_app. split; [exact Hall |].
        constructor; [| constructor]. destruct Ht as [Hc | [Hk _]]; auto.
      * intros Hload. apply Exists_app.
        destruct Ht as [Hc | [Hk Hl]]; [right; constructor; exact Hc |].
        left. apply Hsome. rewrite <- Hl. exact Hload.
Qed.

Lemma reachable_tidy (evs : list Event) : tidy (run_events start evs).
Proof.
  induction evs as [|ev evs IH] using rev_ind.
  - split; [constructor | discriminate].
  - rewrite run_events_app. simpl. apply step_tidy, IH.
Qed.

(** X8: the loading indicator never gets stuck: in every state the
    application reaches with [isLoading] true, one of the outstanding
    calls is such that, whatever the service answers to it (an answer,
    an answer without image, a rejection, a broken stream), its handler
    leaves [isLoading] false. *)
Theorem loading_is_always_cleared (evs : list Event) :
  isLoading (chat (ui (run_events start evs))) = true ->
  exists n t,
    nth_error (pending (run_events start evs)) n = Some t
    /\ forall o, resume t o <> None ->
         isLoading (chat (ui (step (run_events start evs) (Settle n o)))) = false.
Proof.
  intros Hload. destruct (reachable_tidy evs) as [_ Hsome].
  apply Exists_exists in Hsome as (t & Hin & Hc); [| exact Hload].
  apply In_nth_error in Hin as [n Hn].
  exists n, t. split; [exact Hn |].
  intros o Ho.
  destruct (resume t o) as [q|] eqn:Hq; [| contradiction].
  destruct (Hc o q Hq (ui (run_events start evs))) as (u' & Hrun & Hl).
  assert (Hn' : nth_error (pending (run_events start evs)) n = Some t)
    by exact Hn.
  unfold step. rewrite Hn', Hq.
  unfold launch. rewrite Hrun. simpl. rewrite reconcile_chat. exact Hl.
Qed.

Lemma loading_is_always_cleared_witness :
  isLoading (chat (ui (run_events start enter_while_loading))) = true
  /\ exists n t,
       nth_error (pending (run_events start enter_while_loading)) n = Some t
       /\ forall o, resume t o <> None ->
            isLoading (chat (ui (step (run_events start enter_while_loading)
                                   (Settle n o)))) = false.
Proof.
  split; [reflexivity |].
  apply (loading_is_always_cleared enter_while_loading). reflexivity.
Defined.

End LoadingFacts.

Module EditorMore.

Import Types State Sdk Async Service Spec Notions System.
Import ChatFacts SystemFacts ServiceMore.

(** *** Rendering *)

Lemma reconcile_rendered (u : UI) : rendered (reconcile u).
Proof.
  unfold reconcile, rendered.
  destruct (isEditing u && JS.truthy_opt (capturedImage u)) eqn:E;
    [destruct (editor u) eqn:Ed |]; simpl; try rewrite Ed; exact E.
Qed.

Lemma rendered_reconcile (u : UI) : rendered u -> reconcile u = u.
Proof.
  unfold reconcile, rendered. destruct u as [c e ch ed mo co al]. simpl.
  destruct ed; intros ->; reflexivity.
Qed.

Lemma launch_ui (u : UI) (w : list Task) (th : list Exn) (p : Prog unit) :
  ui (launch u w th p) = reconcile (fst (run p u)).
Proof.
  unfold launch. destruct (run p u) as [u' [[[]|e]|t]]; reflexivity.
Qed.

(** An event leaves the application as it is, or runs a handler or
    the rest of one. *)
Lemma step_cases (s : Sys) (ev : Event) :
  step s ev = s
  \/ exists w p, step s ev = launch (ui s) w (unhandled s) p.
Proof.
  assert (Hev : (exists n o, ev = Settle n o)
                \/ step s ev = match handler (ui s) ev with
                               | Some p => launch (ui s) (pending s) (unhandled s) p
                               | None => s
                               end).
  { destruct ev; eauto. }
  destruct Hev as [(n & o & ->) | ->].
  - unfold step. destruct (nth_error (pending s) n) as [t|]; [| auto].
    destruct (resume t o) as [q|]; eauto.
  - destruct (handler (ui s) ev) as [p|]; eauto.
Qed.

Lemma step_rendered (s : Sys) (ev : Event) :
  rendered (ui s) -> rendered (ui (step s ev)).
Proof.
  intros H. destruct (step_cases s ev) as [-> | (w & p & ->)]; [exact H |].
  rewrite launch_ui. apply reconcile_rendered.
Qed.

(** The editor is on the screen exactly while [isEditing] is set and an
    image is captured, in every state the application reaches. *)
Lemma reachable_rendered (evs : list Event) :
  rendered (ui (run_events start evs)).
Proof.
  induction evs as [|ev evs IH] using rev_ind.
  - reflexivity.
  - rewrite run_events_app. simpl. apply step_rendered, IH.
Qed.

Lemma mounted_rendered (u : UI) (m : Mounted) :
  rendered u -> editor u = Some m ->
  isEditing u = true /\ JS.truthy_opt (capturedImage u) = true.
Proof.
  unfold rendered. intros H Hm. rewrite Hm in H.
  apply andb_true_iff. exact H.
Qed.

Lemma sys_eta (s : Sys) :
  {| ui := ui s; pending := pending s; unhandled := unhandled s |} = s.
Proof. destruct s; reflexivity. Qed.

(** X9: a blank prompt starts no edit, by Enter as by the Generate
    button: in every state the application reaches with the editor
    open and a prompt that is empty or white space only, either leaves
    the whole application as it is. *)
Theorem blank_prompt_starts_no_edit (evs : list Event) (m : Mounted)
    (ev : Event) :
  editor (ui (run_events start evs)) = Some m ->
  blank (prompt (cells m)) = true ->
  ev = EditorEnter \/ ev = EditorClickGenerate ->
  step (run_events start evs) ev = run_events start evs.
Proof.
  intros Hm Hblank Hev. set (s := run_events start evs) in *.
  assert (Htrim : JS.truthy (JS.trim (prompt (cells m))) = false).
  { rewrite trim_blank, Hblank. reflexivity. }
  destruct Hev as [-> | ->]; unfold step, handler, on_editor; rewrite Hm.
  - unfold launch, editor_handleGenerate, ImageEditor.handleGenerate.
    rewrite Htrim. simpl.
    pose proof (rendered_reconcile _ (reachable_rendered evs)) as Hr.
    fold s in Hr. rewrite Hr. apply sys_eta.
  - rewrite Htrim, orb_true_r. reflexivity.
Qed.

Lemma blank_prompt_starts_no_edit_witness :
  let evs := [FileLoaded sample_image; ClickEdit; EditorType "   "] in
  (exists m, editor (ui (run_events start evs)) = Some m
             /\ blank (prompt (cells m)) = true)
  /\ step (run_events start evs) EditorEnter = run_events start evs.
Proof.
  intros evs. split; [eexists; split; reflexivity |].
  apply (blank_prompt_starts_no_edit evs
           {| instance := 1;
              cells := {| prompt := "   "; isGenerating := false;
                          generatedImage := None; error := None |} |}
           EditorEnter);
    [reflexivity | reflexivity | left; reflexivity].
Defined.

(** *** The cells of the mounted editor *)

Lemma editor_with_editor (u : UI) (m : Mounted) (f : EditorState -> EditorState) :
  editor u = Some m ->
  editor (with_editor (instance m) f u)
  = Some {| instance := instance m; cells := f (cells m) |}.
Proof.
  intros Hm. unfold with_editor. simpl. rewrite Hm, Nat.eqb_refl. reflexivity.
Qed.

Lemma rendered_with_editor (u : UI) (m : Mounted) (f : EditorState -> EditorState) :
  rendered u -> editor u = Some m -> rendered (with_editor (instance m) f u).
Proof.
  intros Hr Hm. unfold rendered in *.
  rewrite (editor_with_editor u m f Hm). rewrite Hm in Hr. exact Hr.
Qed.

(** A generated image the editor shows is never empty, in every state
    the application reaches. *)
Lemma generated_truthy (evs : list Event) (m : Mounted) (g : string) :
  editor (ui (run_events start evs)) = Some m ->
  generatedImage (cells m) = Some g ->
  JS.truthy g = true.
Proof.
  intros Hm Hg.
  destruct (generated_after_success evs (instance m) g) as
    (evs1 & ev & evs2 & _ & n & o & t & _ & _ & _ & r & _ & Hr).
  { exists m. auto. }
  eapply first_image_truthy. exact Hr.
Qed.

(** Enter in the prompt of the editor, the prompt not being blank,
    starts one edit of the image the editor shows. *)
Lemma enter_starts_edit (s : Sys) (m : Mounted) :
  editor (ui s) = Some m ->
  blank (prompt (cells m)) = false ->
  exists t,
    pending (step s EditorEnter) = pending s ++ [t]
    /\ request_of t
       = edit_request
           (ImageEditor.activeImage (ChatInterface.narrowed (capturedImage (ui s)))
              (cells m))
           (prompt (cells m)).
Proof.
  intros Hm Hblank.
  assert (Htrim : JS.truthy (JS.trim (prompt (cells m))) = true).
  { rewrite trim_blank, Hblank. reflexivity. }
  unfold step, handler, on_editor. rewrite Hm.
  unfold launch, editor_handleGenerate, ImageEditor.handleGenerate.
  rewrite Htrim. simpl. eexists. split; reflexivity.
Qed.

(** X10: Revert to Original makes the next edit start from the
    original again: in every state the application reaches with the
    editor showing a generated image and a prompt that is not blank,
    Enter sends the generated image, and Enter after Revert sends the
    captured image of the application, with the same prompt. *)
Theorem revert_restarts_from_original (evs : list Event) (m : Mounted)
    (g : string) :
  editor (ui (run_events start evs)) = Some m ->
  generatedImage (cells m) = Some g ->
  blank (prompt (cells m)) = false ->
  (exists t,
      pending (step (run_events start evs) EditorEnter)
      = pending (run_events start evs) ++ [t]
      /\ request_of t = edit_request g (prompt (cells m)))
  /\ (exists t,
      pending (step (step (run_events start evs) EditorRevert) EditorEnter)
      = pending (run_events start evs) ++ [t]
      /\ request_of t
         = edit_request (ChatInterface.narrowed (capturedImage (ui (run_events start evs))))
             (prompt (cells m))).
Proof.
  intros Hm Hg Hblank.
  pose proof (generated_truthy evs m g Hm Hg) as Ht.
  pose proof (reachable_rendered evs) as Hr.
  set (s := run_events start evs) in *.
  split.
  - destruct (enter_starts_edit s m Hm Hblank) as (t & Hp & Hreq).
    exists t. split; [exact Hp |]. rewrite Hreq.
    unfold ImageEditor.activeImage. rewrite Hg. simpl. rewrite Ht. reflexivity.
  - assert (Hs1 : step s EditorRevert
                  = {| ui := setGeneratedImage (instance m) None (ui s);
                       pending := pending s; unhandled := unhandled s |}).
    { unfold step, handler, on_editor. rewrite Hm, Hg. simpl. rewrite Ht.
      unfold launch. simpl. f_equal.
      apply rendered_reconcile, rendered_with_editor; assumption. }
    rewrite Hs1.
    destruct (enter_starts_edit
                {| ui := setGeneratedImage (instance m) None (ui s);
                   pending := pending s; unhandled := unhandled s |}
                {| instance := instance m;
                   cells := {| prompt := prompt (cells m);
                               isGenerating := isGenerating (cells m);
                               generatedImage := None;
                               error := error (cells m) |} |})
      as (t & Hp & Hreq).
    { cbn [ui]. unfold setGeneratedImage.
      rewrite (editor_with_editor _ _ _ Hm). reflexivity. }
    { exact Hblank. }
    exists t. split; [exact Hp |]. rewrite Hreq. reflexivity.
Qed.

Lemma revert_restarts_from_original_witness :
  let evs := edit_session ++ [EditorType "Add a moon"] in
  (exists m,
      editor (ui (run_events start evs)) = Some m
      /\ generatedImage (cells m) = Some "data:image/png;base64,Tm9jdHVybmU="
      /\ blank (prompt (cells m)) = false)
  /\ exists t,
       pending (step (step (run_events start evs) EditorRevert) EditorEnter)
       = pending (run_events start evs) ++ [t]
       /\ request_of t = edit_request sample_image "Add a moon".
Proof.
  intros evs. split; [eexists; repeat split |].
  apply (revert_restarts_from_original evs
           {| instance := 1;
              cells := {| prompt := "Add a moon"; isGenerating := false;
                          generatedImage := Some "data:image/png;base64,Tm9jdHVybmU=";
                          error := None |} |}
           "data:image/png;base64,Tm9jdHVybmU="); reflexivity.
Defined.

(** X11: edits chain: when the editor holds the image an earlier edit
    returned (the data URL of an inline part without commas and with
    data), the next edit sends exactly the data of that part with the
    prompt; it declares the data as 'image/png' whatever mime type the
    part was returned with. *)
Theorem next_edit_sends_returned_data (imageSrc : string) (i : nat)
    (st : EditorState) (d : InlineData) :
  generatedImage st = Some (data_url d) ->
  blank (prompt st) = false ->
  no_comma (mimeType d) = true ->
  no_comma (data d) = true ->
  JS.truthy (data d) = true ->
  first_call (ImageEditor.handleGenerate imageSrc i st)
  = Some (ContentCall
            {| model := "gemini-2.5-flash-image";
               contents := [InlinePart {| mimeType := "image/png"; data := data d |};
                            TextPart (prompt st)];
               imageConfig := None |}).
Proof.
  intros Hg Hblank Hm Hd Ht. unfold ImageEditor.handleGenerate.
  rewrite trim_blank, Hblank, Hg. simpl.
  fold (data_url d). rewrite (base64Data_data_url d Hm Hd Ht). reflexivity.
Qed.

Lemma next_edit_sends_returned_data_witness :
  let d := {| mimeType := "image/jpeg"; data := "Tm9jdHVybmU=" |} in
  let st := {| prompt := "Add a moon"; isGenerating := false;
               generatedImage := Some "data:image/jpeg;base64,Tm9jdHVybmU=";
               error := None |} in
  generatedImage st = Some (data_url d)
  /\ blank (prompt st) = false
  /\ first_call (ImageEditor.handleGenerate sample_image 1 st)
     = Some (ContentCall
               {| model := "gemini-2.5-flash-image";
                  contents := [InlinePart {| mimeType := "image/png";
                                             data := "Tm9jdHVybmU=" |};
                               TextPart "Add a moon"];
                  imageConfig := None |}).
Proof.
  intros d st. split; [reflexivity | split; [reflexivity |]].
  apply (next_edit_sends_returned_data sample_image 1 st d); reflexivity.
Defined.

(** The rest of an edit of the mounting [i], as [handleGenerate] leaves
    it when it suspends. *)
Lemma from_editor_resume (i : nat) (t : Task) (o : Awaited GenerateContentResponse) :
  from_editor i t ->
    resume t (ContentSettles o)
    = Some (try_catch_finally
              (bind (try_catch
                       (bind (settle o)
                          (fun response => ret (first_image (response_parts response))))
                       (fun error => bind (Service.console_error "Image edit error:" error)
                                       (fun _ => throw error)))
                 (fun result =>
                    if JS.truthy_opt result
                    then bind (eff (setGeneratedImage i result))
                           (fun _ => eff (setPrompt i EmptyString))
                    else eff (setError i
                                (Some "Could not generate edit. Try a different prompt."))))
              (fun e => bind (Service.console_error EmptyString e)
                          (fun _ => eff (setError i
                                           (Some "An error occurred during generation."))))
              (eff (setIsGenerating i false))).
Proof.
  intros (imageSrc & st & u0 & u1 & Hrun).
  revert Hrun. unfold ImageEditor.handleGenerate.
  destruct (JS.truthy (JS.trim (prompt st))); simpl; [| discriminate].
  intros [= _ <-]. reflexivity.
Qed.

(** X12: a failed edit costs the user nothing but the attempt: in
    every state the application reaches with the editor open, when the
    request of one of its outstanding edits is rejected, the editor
    keeps its prompt and the image it shows, shows the inline error and
    is no longer generating; the chat panel and the captured image are
    untouched. *)
Theorem failed_edit_keeps_work (evs : list Event) (m : Mounted) (n : nat)
    (t : Task) (e : Exn) :
  editor (ui (run_events start evs)) = Some m ->
  nth_error (pending (run_events start evs)) n = Some t ->
  from_editor (instance m) t ->
  editor (ui (step (run_events start evs) (Settle n (ContentSettles (Rejected e)))))
  = Some {| instance := instance m;
            cells := {| prompt := prompt (cells m);
                        isGenerating := false;
                        generatedImage := generatedImage (cells m);
                        error := Some "An error occurred during generation." |} |}
  /\ chat (ui (step (run_events start evs) (Settle n (ContentSettles (Rejected e)))))
     = chat (ui (run_events start evs))
  /\ capturedImage (ui (step (run_events start evs) (Settle n (ContentSettles (Rejected e)))))
     = capturedImage (ui (run_events start evs)).
Proof.
  intros Hm Hn Hfrom.
  pose proof (reachable_rendered evs) as Hr.
  set (s := run_events start evs) in *.
  pose proof (from_editor_resume _ t (Rejected e) Hfrom) as Hq.
  destruct (mounted_rendered _ _ Hr Hm) as [He Hc].
  unfold step. rewrite Hn, Hq. unfold launch. simpl.
  unfold reconcile. simpl. rewrite He, Hc. simpl.
  repeat (rewrite ?Hm, ?Nat.eqb_refl; simpl).
  repeat split.
Qed.

Lemma failed_edit_keeps_work_witness :
  let evs := [FileLoaded sample_image; ClickEdit;
              EditorType "Make it night time"; EditorEnter] in
  exists m t,
    editor (ui (run_events start evs)) = Some m
    /\ nth_error (pending (run_events start evs)) 0 = Some t
    /\ from_editor (instance m) t
    /\ editor (ui (step (run_events start evs)
                     (Settle 0 (ContentSettles (Rejected (Error "Failed to fetch"))))))
       = Some {| instance := 1;
                 cells := {| prompt := "Make it night time";
                             isGenerating := false;
                             generatedImage := None;
                             error := Some "An error occurred during generation." |} |}.
Proof.
  intros evs. eexists. eexists.
  split; [reflexivity | split; [reflexivity |]].
  assert (Hfrom : from_editor 1
            (OnContent
               {| model := "gemini-2.5-flash-image";
                  contents := [InlinePart {| mimeType := "image/png";
                                             data := "iVBORw0KGgo=" |};
                               TextPart "Make it night time"];
                  imageConfig := None |}
               (fun o =>
                  try_catch_finally
                    (bind (try_catch
                             (bind (settle o)
                                (fun response =>
                                   ret (first_image (response_parts response))))
                             (fun error =>
                                bind (Service.console_error "Image edit error:" error)
                                  (fun _ => throw error)))
                       (fun result =>
                          if JS.truthy_opt result
                          then bind (eff (setGeneratedImage 1 result))
                                 (fun _ => eff (setPrompt 1 EmptyString))
                          else eff (setError 1
                                      (Some "Could not generate edit. Try a different prompt."))))
                    (fun e => bind (Service.console_error EmptyString e)
                                (fun _ => eff (setError 1
                                                 (Some "An error occurred during generation."))))
                    (eff (setIsGenerating 1 false))))).
  { exists sample_image,
      {| prompt := "Make it night time"; isGenerating := false;
         generatedImage := None; error := None |},
      App.initial. eexists. reflexivity. }
  split; [exact Hfrom |].
  apply (failed_edit_keeps_work evs
           {| instance := 1;
              cells := {| prompt := "Make it night time"; isGenerating := true;
                          generatedImage := None; error := None |} |}
           0 _ (Error "Failed to fetch") eq_refl eq_refl Hfrom).
Defined.

(** *** The editor and the rest of the application *)

(** X13: the editor lives and dies with the captured image: in every
    state the application reaches with the editor open, removing the
    attached image takes the editor off the screen while [isEditing]
    stays set, and the next image that is loaded brings the editor back
    as a new mounting with the first values of its cells: the prompt,
    the generated image and the error of before are gone. *)
Theorem editor_reopens_fresh (evs : list Event) (m : Mounted) (img : string) :
  editor (ui (run_events start evs)) = Some m ->
  JS.truthy img = true ->
  editor (ui (step (run_events start evs) ClickRemove)) = None
  /\ isEditing (ui (step (run_events start evs) ClickRemove)) = true
  /\ editor (ui (step (step (run_events start evs) ClickRemove) (FileLoaded img)))
     = Some {| instance := S (mounts (ui (run_events start evs)));
               cells := fresh_editor |}
  /\ capturedImage (ui (step (step (run_events start evs) ClickRemove) (FileLoaded img)))
     = Some img.
Proof.
  intros Hm Himg.
  destruct (mounted_rendered _ _ (reachable_rendered evs) Hm) as [He Hc].
  set (s := run_events start evs) in *.
  assert (Hs1 : step s ClickRemove
                = {| ui := {| capturedImage := None; isEditing := true;
                              chat := chat (ui s); editor := None;
                              mounts := mounts (ui s); console := console (ui s);
                              alerts := alerts (ui s) |};
                     pending := pending s; unhandled := unhandled s |}).
  { unfold step, handler. rewrite Hc. unfold launch. simpl.
    unfold reconcile. simpl. rewrite He. reflexivity. }
  rewrite Hs1. repeat split.
  all: unfold step, handler, launch; simpl;
    unfold reconcile; simpl; rewrite Himg; reflexivity.
Qed.

Lemma editor_reopens_fresh_witness :
  editor (ui (run_events start edit_session)) = Some night_editor
  /\ JS.truthy "data:image/png;base64,QmFzaWxpY2E=" = true
  /\ editor (ui (step (step (run_events start edit_session) ClickRemove)
                   (FileLoaded "data:image/png;base64,QmFzaWxpY2E=")))
     = Some {| instance := 2; cells := fresh_editor |}.
Proof.
  split; [reflexivity | split; [reflexivity |]].
  apply (editor_reopens_fresh edit_session night_editor
           "data:image/png;base64,QmFzaWxpY2E="); reflexivity.
Defined.

(** A send with an image attached issues one request, and the request
    carries the image. *)
Lemma send_carries_attached_image (s : Sys) (img : string) :
  capturedImage (ui s) = Some img ->
  JS.truthy img = true ->
  exists t,
    pending (step s ChatEnter) = pending s ++ [t]
    /\ carries_image t = true.
Proof.
  intros Hc Himg. unfold step, handler, chat_handleSend, launch.
  rewrite Hc. unfold ChatInterface.handleSend, ChatInterface.isEditRequest.
  simpl. rewrite Himg. rewrite andb_false_r. simpl.
  destruct (JS.includes (JS.toLowerCase (input (chat (ui s)))) "add"
            || JS.includes (JS.toLowerCase (input (chat (ui s)))) "remove"
            || JS.includes (JS.toLowerCase (input (chat (ui s)))) "change"
            || JS.includes (JS.toLowerCase (input (chat (ui s)))) "filter");
    simpl; eexists; (split; [reflexivity |]).
  - reflexivity.
  - unfold carries_image. simpl. unfold userParts, JS.or_undefined. simpl.
    rewrite Himg. simpl. rewrite Himg. reflexivity.
Qed.

(** X14: Save hands the edited image over to the chat panel: in every
    state the application reaches with the editor showing a generated
    image, Save closes the editor, makes that image the captured image
    and leaves the chat panel and the outstanding calls as they are;
    the next send then carries that image. *)
Theorem saved_image_becomes_attachment (evs : list Event) (m : Mounted)
    (g : string) :
  editor (ui (run_events start evs)) = Some m ->
  generatedImage (cells m) = Some g ->
  editor (ui (step (run_events start evs) EditorClickSave)) = None
  /\ isEditing (ui (step (run_events start evs) EditorClickSave)) = false
  /\ capturedImage (ui (step (run_events start evs) EditorClickSave)) = Some g
  /\ chat (ui (step (run_events start evs) EditorClickSave))
     = chat (ui (run_events start evs))
  /\ pending (step (run_events start evs) EditorClickSave)
     = pending (run_events start evs)
  /\ exists t,
       pending (step (step (run_events start evs) EditorClickSave) ChatEnter)
       = pending (run_events start evs) ++ [t]
       /\ carries_image t = true.
Proof.
  intros Hm Hg.
  pose proof (generated_truthy evs m g Hm Hg) as Ht.
  set (s := run_events start evs) in *.
  assert (Hs1 : step s EditorClickSave
                = {| ui := {| capturedImage := Some g; isEditing := false;
                              chat := chat (ui s); editor := None;
                              mounts := mounts (ui s); console := console (ui s);
                              alerts := alerts (ui s) |};
                     pending := pending s; unhandled := unhandled s |}).
  { unfold step, handler, on_editor. rewrite Hm, Hg. simpl. rewrite Ht. simpl.
    unfold launch, editor_handleSave, ImageEditor.handleSave.
    rewrite Hg. simpl. rewrite Ht. reflexivity. }
  rewrite Hs1. do 5 (split; [reflexivity |]).
  destruct (send_carries_attached_image
              {| ui := {| capturedImage := Some g; isEditing := false;
                          chat := chat (ui s); editor := None;
                          mounts := mounts (ui s); console := console (ui s);
                          alerts := alerts (ui s) |};
                 pending := pending s; unhandled := unhandled s |}
              g eq_refl Ht) as (t & Hp & Hcarry).
  exists t. split; [exact Hp | exact Hcarry].
Qed.

Lemma saved_image_becomes_attachment_witness :
  editor (ui (run_events start edit_session)) = Some night_editor
  /\ generatedImage (cells night_editor) = Some "data:image/png;base64,Tm9jdHVybmU="
  /\ capturedImage (ui (step (run_events start edit_session) EditorClickSave))
     = Some "data:image/png;base64,Tm9jdHVybmU=".
Proof.
  split; [reflexivity | split; [reflexivity |]].
  apply (saved_image_becomes_attachment edit_session night_editor
           "data:image/png;base64,Tm9jdHVybmU="); reflexivity.
Defined.

End EditorMore.

Module ViewerMore.

Import ThreeDViewer.

Section Canvas.

Variable num : Type.
Variables add sub mul div : num -> num -> num.
Variable neg : num -> num.
Variables cos sin : num -> num.
Variable PI : num.
Variable ofZ : Z -> num.
Variable dec : Z -> nat -> num.

Local Abbreviation drawCube := (drawCube num add sub mul div cos sin ofZ).
Local Abbreviation render := (render num add sub mul div neg cos sin PI ofZ dec).
Local Abbreviation exec_all := (exec_all num add ofZ).
Local Abbreviation wireframe := (wireframe num add sub mul div cos sin ofZ).

(** What one cube does to the canvas. *)
Lemma drawCube_strokes (c : Context num) (x y size : num) (color : string)
    (rotX rotY : num) :
  strokes num (exec_all c (drawCube x y size color rotX rotY))
  = strokes num c
    ++ [{| ink := color; pen_width := ofZ 2;
           segments := wireframe c x y size rotX rotY |}].
Proof. reflexivity. Qed.

Lemma drawCube_current (c : Context num) (x y size : num) (color : string)
    (rotX rotY : num) :
  current num (exec_all c (drawCube x y size color rotX rotY)) = current num c.
Proof. reflexivity. Qed.

Lemma drawCube_saved (c : Context num) (x y size : num) (color : string)
    (rotX rotY : num) :
  saved num (exec_all c (drawCube x y size color rotX rotY)) = saved num c.
Proof. reflexivity. Qed.

Lemma wireframe_current (c c' : Context num) (x y size rotX rotY : num) :
  current num c' = current num c ->
  wireframe c' x y size rotX rotY = wireframe c x y size rotX rotY.
Proof.
  intros H. unfold ThreeDViewer.wireframe, ThreeDViewer.on_canvas.
  rewrite H. reflexivity.
Qed.

Lemma exec_all_app (c : Context num) (a b : list (Cmd num)) :
  exec_all c (a ++ b) = exec_all (exec_all c a) b.
Proof. apply fold_left_app. Qed.

(** X15: cubes do not disturb one another: two cubes drawn one after
    the other are stroked each around its own centre, taken from where
    the canvas stood before the first: the translation of the first
    cube is undone before the second is drawn; and the drawing state is
    left as it was found. *)
Theorem cubes_do_not_disturb (c : Context num)
    (x y size : num) (color : string) (rotX rotY : num)
    (x' y' size' : num) (color' : string) (rotX' rotY' : num) :
  strokes num (exec_all c (drawCube x y size color rotX rotY
                           ++ drawCube x' y' size' color' rotX' rotY'))
  = strokes num c
    ++ [{| ink := color; pen_width := ofZ 2;
           segments := wireframe c x y size rotX rotY |};
        {| ink := color'; pen_width := ofZ 2;
           segments := wireframe c x' y' size' rotX' rotY' |}]
  /\ current num (exec_all c (drawCube x y size color rotX rotY
                              ++ drawCube x' y' size' color' rotX' rotY'))
     = current num c
  /\ saved num (exec_all c (drawCube x y size color rotX rotY
                            ++ drawCube x' y' size' color' rotX' rotY'))
     = saved num c.
Proof.
  rewrite exec_all_app.
  rewrite drawCube_strokes, drawCube_current, drawCube_saved.
  rewrite (wireframe_current c _ _ _ _ _ _
             (drawCube_current c x y size color rotX rotY)).
  rewrite drawCube_strokes, drawCube_current, drawCube_saved.
  rewrite <- app_assoc. repeat split.
Qed.

(** X16: a frame starts from nothing: what is on the canvas after the
    commands of a frame does not depend on what was there, or on the
    state the context was in, before; it is five strokes of twelve
    segments each, width 2, in the four colours of the orbiting cubes
    and white, and the context is left in its first state with nothing
    saved.  Without a container [render] draws nothing and asks for no
    further frame. *)
Theorem frame_starts_from_nothing (t w h : num) (c c' : Context num) :
  render t None = None
  /\ exists cmds,
       render t (Some (w, h)) = Some (cmds, add t (ofZ 1))
       /\ exec_all c cmds = exec_all c' cmds
       /\ map (ink num) (strokes num (exec_all c cmds))
          = ["#4285F4"; "#EA4335"; "#FBBC05"; "#34A853"; "#ffffff"]
       /\ map (fun s => length (segments num s)) (strokes num (exec_all c cmds))
          = [12; 12; 12; 12; 12]
       /\ map (pen_width num) (strokes num (exec_all c cmds))
          = [ofZ 2; ofZ 2; ofZ 2; ofZ 2; ofZ 2]
       /\ current num (exec_all c cmds) = default_state num ofZ
       /\ saved num (exec_all c cmds) = [].
Proof.
  split; [reflexivity |]. eexists. split; [reflexivity |].
  do 4 (split; [vm_compute; reflexivity |]).
  split; vm_compute; reflexivity.
Qed.

End Canvas.

End ViewerMore.

Module RealFacts.

Import Reals Lra.
Import RealCube.
Local Open Scope R_scope.

(** *** Rotations keep lengths *)

Lemma rotations_bound (a b c sX cX sY cY : R) :
  a * a = 1 -> b * b = 1 -> c * c = 1 ->
  sX * sX + cX * cX = 1 -> sY * sY + cY * cY = 1 ->
  (a * cY - c * sY) * (a * cY - c * sY) <= 2
  /\ (b * cX - (a * sY + c * cY) * sX) * (b * cX - (a * sY + c * cY) * sX) <= 3
  /\ (b * sX + (a * sY + c * cY) * cX) * (b * sX + (a * sY + c * cY) * cX) <= 3.
Proof.
  intros Ha Hb Hc HX HY.
  set (x1 := a * cY - c * sY). set (z1 := a * sY + c * cY).
  set (y2 := b * cX - z1 * sX). set (z2 := b * sX + z1 * cX).
  assert (H1 : x1 * x1 + z1 * z1 = 2).
  { replace (x1 * x1 + z1 * z1) with ((a * a + c * c) * (sY * sY + cY * cY))
      by (unfold x1, z1; ring).
    rewrite Ha, Hc, HY. lra. }
  assert (H2 : y2 * y2 + z2 * z2 = 1 + z1 * z1).
  { replace (y2 * y2 + z2 * z2) with ((b * b + z1 * z1) * (sX * sX + cX * cX))
      by (unfold y2, z2; ring).
    rewrite Hb, HX. lra. }
  pose proof (Rle_0_sqr x1) as P1. pose proof (Rle_0_sqr z1) as P2.
  pose proof (Rle_0_sqr y2) as P3. pose proof (Rle_0_sqr z2) as P4.
  unfold Rsqr in *. repeat split; lra.
Qed.

Lemma scale_bounds (z : R) :
  z * z <= 3 ->
  -2 < z < 2 /\ 0 < 200 + z
  /\ 0 < 200 / (200 + z) /\ 200 / (200 + z) < 102 / 100.
Proof.
  intros Hz.
  assert (Hlo : -2 < z) by nra. assert (Hhi : z < 2) by nra.
  assert (Hpos : 0 < 200 + z) by lra.
  split; [lra |]. split; [exact Hpos |]. split.
  - apply Rdiv_lt_0_compat; lra.
  - apply Rmult_lt_reg_r with (200 + z); [exact Hpos |].
    unfold Rdiv. rewrite Rmult_assoc, Rinv_l by lra. lra.
Qed.

Lemma drawn_bound (p size s k : R) :
  p * p <= k -> k <= 3 -> 0 < s -> s < 102 / 100 ->
  (p * size * s) * (p * size * s) <= 4 * (size * size).
Proof.
  intros Hp Hk Hs0 Hs.
  assert (Hss : s * s <= 1.05) by nra.
  assert (Hsz : 0 <= size * size)
    by (pose proof (Rle_0_sqr size); unfold Rsqr in *; lra).
  assert (Hpp : 0 <= p * p)
    by (pose proof (Rle_0_sqr p); unfold Rsqr in *; lra).
  replace (p * size * s * (p * size * s))
    with ((p * p) * ((size * size) * (s * s))) by ring.
  assert (H1 : size * size * (s * s) <= size * size * 1.05)
    by (apply Rmult_le_compat_l; lra).
  assert (H2 : p * p * (size * size * (s * s)) <= 3 * (size * size * 1.05)).
  { apply Rmult_le_compat; try lra. apply Rmult_le_pos; nra. }
  lra.
Qed.

Lemma corner_coordinates (v : Z * Z * Z) :
  In v ThreeDViewer.cube ->
  IZR (fst (fst v)) * IZR (fst (fst v)) = 1
  /\ IZR (snd (fst v)) * IZR (snd (fst v)) = 1
  /\ IZR (snd v) * IZR (snd v) = 1.
Proof.
  simpl. intros H.
  repeat (destruct H as [<- | H]; [simpl; repeat split; lra |]).
  contradiction.
Qed.

(** X17: in exact arithmetic the perspective never divides by zero and
    never flips a cube: for every corner of the cube and all angles,
    the depth the perspective divides by lies between -2 and 2, so the
    divisor 200 + z is positive and the scale lies between 0 and 1.02;
    and the corner is drawn within twice the size of the cube from its
    centre, in each direction. *)
Theorem corners_stay_in_front (size rotX rotY : R) (v : Z * Z * Z) :
  In v ThreeDViewer.cube ->
  -2 < depth rotX rotY v < 2
  /\ 0 < 200 + depth rotX rotY v
  /\ 0 < 200 / (200 + depth rotX rotY v) < 102 / 100
  /\ fst (placed size rotX rotY v) * fst (placed size rotX rotY v)
     <= 4 * (size * size)
  /\ snd (placed size rotX rotY v) * snd (placed size rotX rotY v)
     <= 4 * (size * size).
Proof.
  intros Hv. destruct (corner_coordinates v Hv) as (Ha & Hb & Hc).
  destruct v as [[a b] c]. simpl in Ha, Hb, Hc.
  pose proof (sin2_cos2 rotX) as HX. pose proof (sin2_cos2 rotY) as HY.
  unfold Rsqr in HX, HY.
  destruct (rotations_bound (IZR a) (IZR b) (IZR c) (sin rotX) (cos rotX)
              (sin rotY) (cos rotY) Ha Hb Hc HX HY) as (Hx1 & Hy2 & Hz2).
  destruct (scale_bounds _ Hz2) as (Hz & Hpos & Hs0 & Hs).
  unfold depth, placed, ThreeDViewer.placed, ThreeDViewer.rotateX,
    ThreeDViewer.rotateY, ThreeDViewer.vec_of, ThreeDViewer.perspective.
  cbn [fst snd].
  split; [exact Hz |]. split; [exact Hpos |]. split; [split; assumption |].
  split.
  - apply (drawn_bound _ size _ 2); [exact Hx1 | lra | exact Hs0 | exact Hs].
  - apply (drawn_bound _ size _ 3); [exact Hy2 | lra | exact Hs0 | exact Hs].
Qed.

Lemma corners_stay_in_front_witness :
  In (1, -1, 1)%Z ThreeDViewer.cube
  /\ 0 < 200 + depth (PI / 3) (PI / 4) (1, -1, 1)%Z.
Proof.
  split; [simpl; tauto |].
  apply (corners_stay_in_front 30 (PI / 3) (PI / 4) (1, -1, 1)%Z).
  simpl; tauto.
Defined.

(** *** The orbits *)

Lemma orbit_bounds (c s r : R) :
  -1 <= c <= 1 -> -1 <= s <= 1 -> 120 <= r <= 180 ->
  -180 <= c * r <= 180 /\ -90 <= s * r * (5 / 10 ^ 1) <= 90.
Proof.
  intros Hc Hs Hr.
  assert (H1 : -180 <= c * r <= 180) by nra.
  assert (H2 : -180 <= s * r <= 180) by nra.
  split; [exact H1 |]. simpl. lra.
Qed.

Lemma radius_bounds (s : R) : -1 <= s <= 1 -> 120 <= 150 + s * 30 <= 180.
Proof. intros H. lra. Qed.

(** X18: in exact arithmetic every cube of every frame is centred near
    the middle of the canvas: the four orbiting cubes within 180 to
    the left or right and 90 above or below the centre (their orbit
    radius stays between 120 and 180, halved vertically), the pulsing
    cube exactly on it. *)
Theorem cubes_stay_near_centre (t w h : R) :
  exists cmds,
    render t (Some (w, h)) = Some (cmds, t + 1)
    /\ length (centres cmds) = 5%nat
    /\ Forall (fun p => -180 <= fst p - w / 2 <= 180
                        /\ -90 <= snd p - h / 2 <= 90)
         (centres cmds)
    /\ nth 4 (centres cmds) (0, 0) = (w / 2, h / 2).
Proof.
  eexists. split; [reflexivity |]. split; [reflexivity |].
  split; [| reflexivity].
  assert (Hstep : forall cx cy a b,
            -180 <= cx + cos a * (150 + sin b * 30) - cx <= 180
            /\ -90 <= cy + sin a * (150 + sin b * 30) * dec 5 1 - cy <= 90).
  { intros cx cy a b.
    destruct (orbit_bounds (cos a) (sin a) (150 + sin b * 30)
                (COS_bound a) (SIN_bound a) (radius_bounds _ (SIN_bound b)))
      as [H1 H2].
    unfold dec. split; lra. }
  lazymatch goal with
  | |- Forall ?P ?l =>
      let l' := eval cbv [centres flat_map app ThreeDViewer.orbiting
                          ThreeDViewer.indexed_from ThreeDViewer.shapes
                          ThreeDViewer.drawCube ThreeDViewer.edges
                          ThreeDViewer.offset ThreeDViewer.color
                          ThreeDViewer.speed fst snd] in l in
      change (Forall P l')
  end.
  repeat (apply Forall_cons; [cbn [fst snd]; first [apply Hstep | lra] |]).
  apply Forall_nil.
Qed.

End RealFacts.

Module AppMore.

Import Types State Sdk Async Service Spec Notions System.
Import ChatFacts SystemFacts EditorMore.

(** X19: no exception ever leaves a handler, and no handler calls the
    service twice: in every state the application reaches, nothing was
    thrown out of a handler, and every outstanding call, whatever it
    settles to, lets its handler run to its normal end without a
    further request. *)
Theorem no_exception_escapes (evs : list Event) :
  unhandled (run_events start evs) = []
  /\ forall n t o q,
       nth_error (pending (run_events start evs)) n = Some t ->
       resume t o = Some q ->
       forall u, exists u', run q u = (u', inl (Ok tt)).
Proof.
  destruct (reachable_sound evs) as [Hgood Hnone].
  split; [exact Hnone |].
  intros n t o q Hn Hq u.
  rewrite Forall_forall in Hgood.
  destruct (Hgood t (nth_error_In _ _ Hn) o q Hq u) as (u' & added & Hrun & _).
  exists u'. exact Hrun.
Qed.

(** X20: the Edit button needs an image: in every state the
    application reaches, with no image captured it only raises the
    alert and opens nothing; with an image captured and the editor
    closed, it opens the editor as a new mounting with the first values
    of its cells. *)
Theorem edit_needs_an_image (evs : list Event) :
  (JS.truthy_opt (capturedImage (ui (run_events start evs))) = false ->
   step (run_events start evs) ClickEdit
   = {| ui := alert "Please upload an image first to edit."
                (ui (run_events start evs));
        pending := pending (run_events start evs);
        unhandled := unhandled (run_events start evs) |}
   /\ editor (ui (step (run_events start evs) ClickEdit)) = None)
  /\ (JS.truthy_opt (capturedImage (ui (run_events start evs))) = true ->
      editor (ui (run_events start evs)) = None ->
      editor (ui (step (run_events start evs) ClickEdit))
      = Some {| instance := S (mounts (ui (run_events start evs)));
                cells := fresh_editor |}
      /\ alerts (ui (step (run_events start evs) ClickEdit))
         = alerts (ui (run_events start evs))).
Proof.
  pose proof (reachable_rendered evs) as Hr.
  set (s := run_events start evs) in *.
  split.
  - intros Hc.
    assert (He : editor (ui s) = None).
    { unfold rendered in Hr. destruct (editor (ui s)); [| reflexivity].
      rewrite Hc, andb_false_r in Hr. discriminate. }
    unfold step, handler, App.handleEditClick. rewrite Hc.
    unfold launch. simpl. unfold reconcile. simpl.
    rewrite Hc, andb_false_r. simpl.
    split; [| reflexivity].
    f_equal. unfold alert. rewrite He. reflexivity.
  - intros Hc He.
    unfold step, handler, App.handleEditClick. rewrite Hc.
    unfold launch. simpl. unfold reconcile. simpl. rewrite Hc, He. simpl.
    split; reflexivity.
Qed.

Lemma edit_needs_an_image_witness :
  JS.truthy_opt (capturedImage (ui (run_events start []))) = false
  /\ alerts (ui (step (run_events start []) ClickEdit))
     = ["Please upload an image first to edit."]
  /\ JS.truthy_opt (capturedImage (ui (run_events start [FileLoaded sample_image]))) = true
  /\ editor (ui (step (run_events start [FileLoaded sample_image]) ClickEdit))
     = Some {| instance := 1; cells := fresh_editor |}.
Proof.
  destruct (edit_needs_an_image []) as [Hno _].
  destruct (edit_needs_an_image [FileLoaded sample_image]) as [_ Hyes].
  split; [reflexivity |]. split.
  - destruct (Hno eq_refl) as [-> _]. reflexivity.
  - split; [reflexivity |]. apply (Hyes eq_refl eq_refl).
Defined.

Lemma reconcile_capturedImage (u : UI) :
  capturedImage (reconcile u) = capturedImage u.
Proof.
  unfold reconcile.
  destruct (isEditing u && JS.truthy_opt (capturedImage u));
    [destruct (editor u) |]; reflexivity.
Qed.

(** Enter with an image attached starts a call. *)
Lemma enter_with_image_suspends (s : Sys) (img : string) :
  capturedImage (ui s) = Some img ->
  JS.truthy img = true ->
  exists u1 t,
    run (ChatInterface.handleSend (Some img) App.onClearImage (chat (ui s))) (ui s)
    = (u1, inr t)
    /\ step s ChatEnter
       = {| ui := reconcile u1; pending := pending s ++ [t];
            unhandled := unhandled s |}.
Proof.
  intros Hc Himg. unfold step, handler, chat_handleSend, launch.
  rewrite Hc. unfold ChatInterface.handleSend, ChatInterface.isEditRequest.
  simpl. rewrite Himg. rewrite andb_false_r. simpl.
  destruct (JS.includes (JS.toLowerCase (input (chat (ui s)))) "add"
            || JS.includes (JS.toLowerCase (input (chat (ui s)))) "remove"
            || JS.includes (JS.toLowerCase (input (chat (ui s)))) "change"
            || JS.includes (JS.toLowerCase (input (chat (ui s)))) "filter");
    simpl; eexists; eexists; split; reflexivity.
Qed.

(** X21: an image loaded while a send with an image is outstanding is
    lost: the send remembers that it had an image and clears the
    attachment when its call ends, whatever the answer, so the image
    loaded meanwhile is taken away without having been sent. *)
Theorem image_loaded_meanwhile_is_lost (s : Sys) (img img2 : string) :
  capturedImage (ui s) = Some img ->
  JS.truthy img = true ->
  capturedImage (ui (step (step s ChatEnter) (FileLoaded img2))) = Some img2
  /\ exists t,
       pending (step (step s ChatEnter) (FileLoaded img2)) = pending s ++ [t]
       /\ forall o, resume t o <> None ->
            capturedImage
              (ui (step (step (step s ChatEnter) (FileLoaded img2))
                     (Settle (length (pending s)) o))) = None.
Proof.
  intros Hc Himg.
  destruct (enter_with_image_suspends s img Hc Himg) as (u1 & t & Hrun & ->).
  assert (Hs2 : step {| ui := reconcile u1; pending := pending s ++ [t];
                        unhandled := unhandled s |} (FileLoaded img2)
                = {| ui := reconcile (setCapturedImage (Some img2) (reconcile u1));
                     pending := pending s ++ [t]; unhandled := unhandled s |})
    by reflexivity.
  rewrite Hs2. cbn [ui pending].
  split; [rewrite reconcile_capturedImage; reflexivity |].
  exists t. split; [reflexivity |].
  intros o Ho. destruct (resume t o) as [q|] eqn:Hq; [| contradiction].
  destruct (attached_image_is_cleared (Some img) (chat (ui s)) (ui s)
              (reconcile (setCapturedImage (Some img2) (reconcile u1))) o
              (run q (reconcile (setCapturedImage (Some img2) (reconcile u1)))))
    as (u3 & Hx & Hnone).
  { exact Himg. }
  { unfold outcome. rewrite Hrun, Hq. reflexivity. }
  unfold step. cbn [pending ui unhandled].
  rewrite nth_error_app2, Nat.sub_diag by apply Nat.le_refl.
  cbn [nth_error]. rewrite Hq. unfold launch. rewrite Hx. cbn [ui].
  rewrite reconcile_capturedImage. exact Hnone.
Qed.

Lemma image_loaded_meanwhile_is_lost_witness :
  let s := step start (FileLoaded sample_image) in
  capturedImage (ui s) = Some sample_image
  /\ JS.truthy sample_image = true
  /\ capturedImage (ui (step (step s ChatEnter)
                          (FileLoaded "data:image/png;base64,QmFzaWxpY2E=")))
     = Some "data:image/png;base64,QmFzaWxpY2E=".
Proof.
  intros s. split; [reflexivity | split; [reflexivity |]].
  apply (image_loaded_meanwhile_is_lost s sample_image
           "data:image/png;base64,QmFzaWxpY2E="); reflexivity.
Defined.

End AppMore.

Module SceneFacts.

Import Scene.

(** What has been typed into the dialog or loaded from it. *)
Lemma scene_urls_were_typed (evs : list Event) :
  let st := run_events initial evs in
  (tempUrl st = EmptyString \/ In (TypeUrl (tempUrl st)) evs)
  /\ (splineUrl st = EmptyString
      \/ (JS.truthy (splineUrl st) = true /\ In (TypeUrl (splineUrl st)) evs)).
Proof.
  induction evs as [|ev evs IH] using rev_ind; [simpl; auto |].
  unfold run_events in *. rewrite fold_left_app. simpl.
  set (st := fold_left step evs initial) in *.
  destruct IH as [Ht Hs].
  assert (Ht' : tempUrl st = EmptyString \/ In (TypeUrl (tempUrl st)) (evs ++ [ev])).
  { destruct Ht; [auto | right; apply in_or_app; auto]. }
  assert (Hs' : splineUrl st = EmptyString
                \/ (JS.truthy (splineUrl st) = true
                    /\ In (TypeUrl (splineUrl st)) (evs ++ [ev]))).
  { destruct Hs as [? | [? ?]]; [auto | right; split; [| apply in_or_app]; auto]. }
  destruct ev; simpl; unfold handleLoadUrl;
    repeat match goal with
           | |- context [if ?b then _ else _] => destruct b eqn:?
           end;
    simpl; auto.
  - split; [| exact Hs']. right. apply in_or_app. right. left. reflexivity.
  - split; [exact Ht' |]. right. split; [assumption |].
    destruct Ht' as [E | H]; [| exact H].
    rewrite E in *. discriminate.
Qed.

(** X23: the viewer embeds only what the user typed: after any use of
    the sidebar and of the dialog, [ThreeDViewer] shows either the
    placeholder animation, exactly when the scene URL is empty, or the
    frame of a URL that is not empty and was typed into the dialog;
    Load Model on an empty field changes nothing, the dialog stays
    open. *)
Theorem viewer_embeds_typed_url (evs : list Event) :
  (view (run_events initial evs) = Placeholder
   /\ splineUrl (run_events initial evs) = EmptyString
   \/ exists v,
        view (run_events initial evs) = Embedded v
        /\ JS.truthy v = true
        /\ In (TypeUrl v) evs)
  /\ (tempUrl (run_events initial evs) = EmptyString ->
      step (run_events initial evs) ClickLoad = run_events initial evs).
Proof.
  destruct (scene_urls_were_typed evs) as [_ Hs]. split.
  - unfold view. destruct Hs as [E | [Ht Hin]].
    + left. rewrite E. auto.
    + right. exists (splineUrl (run_events initial evs)). rewrite Ht. auto.
  - intros E. unfold step, handleLoadUrl. rewrite E.
    destruct (showLinkInput _); reflexivity.
Qed.

End SceneFacts.
